(** * gpt-crawler: seed resolution and the aggregation / batching engine

    A shallow embedding of [src/core.ts].  The file holds three revisions
    of the module; the model follows the one that aggregates per
    configuration: the seed classification of [crawlSingle], the grouping
    loop and the batching closures ([writeBatchToFile], [addContentOrSplit])
    of [writeSingle], and the dispatcher [write].  The first revision's
    single-configuration [write], which groups by source URL, is modelled
    in [Legacy]; [crawl] over an array of configurations, and the file
    naming of the last revision ([generateFilenameFromUrl],
    [writePageToFile]) in [Direct].

    Conventions.
    - A JavaScript string is modelled by its UTF-8 encoding, one [ascii] per
      byte, so that [Buffer.byteLength(s, "utf-8")] is the number of
      characters of the model string.
    - [Infinity] is the constructor [Infinity] of [limit].
    - The platform and library functions the code calls ([readFile],
      [JSON.parse], [new URL], [isWithinTokenLimit], [downloadListOfUrls])
      are section variables; [writeFile] is assumed to succeed and is
      recorded in a write log.
    - A call of [isWithinTokenLimit] may throw instead of returning;
      [estimatorThrows] tells when, and the loop that awaits
      [addContentOrSplit] rejects there. *)

From Stdlib Require Import String Ascii List NArith ZArith Bool Lia.
From Stdlib Require Import DecimalString DecimalN DecimalPos Permutation.
Import ListNotations.

Local Open Scope list_scope.
Local Open Scope string_scope.
#[local] Set Warnings "-register-all".

(** ** Strings *)

Module Str.

(** The double quote, the backslash and the line feed. *)
Definition dq : string := String (ascii_of_nat 34) EmptyString.
Definition bs : string := String (ascii_of_nat 92) EmptyString.
Definition nl : string := String (ascii_of_nat 10) EmptyString.

(** [Buffer.byteLength(str, "utf-8")]. *)
Definition byteLength (s : string) : N := N.of_nat (String.length s).

(** [Array.prototype.join]. *)
Fixpoint join (sep : string) (parts : list string) : string :=
  match parts with
  | [] => ""
  | [p] => p
  | p :: rest => p ++ sep ++ join sep rest
  end.

(** [String.prototype.endsWith]: the last [length suf] characters of [s]
    are [suf]. *)
Definition endsWith (s suf : string) : bool :=
  let n := String.length s in
  let k := String.length suf in
  if Nat.leb k n then String.eqb (String.substring (n - k) k s) suf
  else false.

(** [s.replace(/\//g, "_")]. *)
Fixpoint replaceSlashes (s : string) : string :=
  match s with
  | EmptyString => EmptyString
  | String c r =>
      String (if Ascii.eqb c "/"%char then "_"%char else c) (replaceSlashes r)
  end.

(** [s.replace(/^_/, "")]. *)
Definition stripLeadingUnderscore (s : string) : string :=
  match s with
  | String c r => if Ascii.eqb c "_"%char then r else s
  | EmptyString => EmptyString
  end.

(** [s.replace(/\.json$/, "")]. *)
Definition stripJsonSuffix (s : string) : string :=
  if endsWith s ".json"
  then String.substring 0 (String.length s - 5) s
  else s.

(** Decimal rendering of a non-negative integer, as in a template literal. *)
Definition ofN (n : N) : string := NilZero.string_of_uint (N.to_uint n).

End Str.

(** ** JSON values and [JSON.stringify] *)

(** A value produced by [JSON.parse].  Object members are listed in the
    object's own property order.  Numbers are restricted to integers. *)
Inductive json : Type :=
| JNull
| JBool (b : bool)
| JNumber (z : Z)
| JString (s : string)
| JArray (items : list json)
| JObject (members : list (string * json)).

Module Json.

Definition hexDigit (n : nat) : ascii :=
  if Nat.ltb n 10 then ascii_of_nat (48 + n) else ascii_of_nat (87 + n).

(** One character of [QuoteJSONString]. *)
Definition escapeChar (c : ascii) : string :=
  let n := nat_of_ascii c in
  if Nat.eqb n 8 then Str.bs ++ "b"
  else if Nat.eqb n 9 then Str.bs ++ "t"
  else if Nat.eqb n 10 then Str.bs ++ "n"
  else if Nat.eqb n 12 then Str.bs ++ "f"
  else if Nat.eqb n 13 then Str.bs ++ "r"
  else if Nat.eqb n 34 then Str.bs ++ Str.dq
  else if Nat.eqb n 92 then Str.bs ++ Str.bs
  else if Nat.ltb n 32 then
    Str.bs ++ "u00"
    ++ String (hexDigit (n / 16)) (String (hexDigit (n mod 16)) "")
  else String c "".

Fixpoint escape (s : string) : string :=
  match s with
  | EmptyString => EmptyString
  | String c r => escapeChar c ++ escape r
  end.

Definition quote (s : string) : string := Str.dq ++ escape s ++ Str.dq.

Definition ofZ (z : Z) : string := NilZero.string_of_int (Z.to_int z).

(** The final assembly of [SerializeJSONObject] / [SerializeJSONArray]:
    [stepback] is the indentation outside, [inner] the indentation of the
    members. *)
Definition wrap (gap stepback inner opening closing : string)
    (partial : list string) : string :=
  match partial with
  | [] => opening ++ closing
  | _ :: _ =>
      if String.eqb gap ""
      then opening ++ Str.join "," partial ++ closing
      else opening ++ Str.nl ++ inner
           ++ Str.join ("," ++ Str.nl ++ inner) partial
           ++ Str.nl ++ stepback ++ closing
  end.

(** The separator after the colon of an object member. *)
Definition colon (gap : string) : string :=
  if String.eqb gap "" then ":" else ": ".

(** [SerializeJSONProperty] with the given [gap]; [indent] is the current
    indentation.  [gap = ""] is [JSON.stringify(v)], a gap of two spaces is
    [JSON.stringify(v, null, 2)]. *)
Fixpoint serialize (gap indent : string) (v : json) : string :=
  match v with
  | JNull => "null"
  | JBool true => "true"
  | JBool false => "false"
  | JNumber z => ofZ z
  | JString s => quote s
  | JArray items =>
      wrap gap indent (indent ++ gap) "[" "]"
        (map (serialize gap (indent ++ gap)) items)
  | JObject members =>
      wrap gap indent (indent ++ gap) "{" "}"
        (map (fun m : string * json =>
                quote (fst m) ++ colon gap
                ++ serialize gap (indent ++ gap) (snd m))
             members)
  end.

(** [JSON.stringify(v)]. *)
Definition stringify (v : json) : string := serialize "" "" v.

(** [JSON.stringify(v, null, 2)]. *)
Definition stringifyIndent2 (v : json) : string := serialize "  " "" v.

(** Property lookup on a parsed object, whose members have distinct
    keys. *)
Fixpoint lookup (k : string) (members : list (string * json)) : option json :=
  match members with
  | [] => None
  | (k', v) :: rest => if String.eqb k k' then Some v else lookup k rest
  end.

(** [data.k] for a parsed value [data]: the outer [None] is the TypeError
    raised on [null], the inner [None] is [undefined]. *)
Definition getProp (data : json) (k : string) : option (option json) :=
  match data with
  | JNull => None
  | JObject members => Some (lookup k members)
  | _ => Some None
  end.

(** JavaScript truthiness of a possibly undefined value. *)
Definition truthy (v : option json) : bool :=
  match v with
  | None => false
  | Some JNull => false
  | Some (JBool b) => b
  | Some (JNumber z) => negb (Z.eqb z 0)
  | Some (JString s) => negb (String.eqb s "")
  | Some (JArray _) => true
  | Some (JObject _) => true
  end.

(** [a || b]. *)
Definition orElse (a b : option json) : option json :=
  if truthy a then a else b.

End Json.

(** ** Numbers with [Infinity] *)

Inductive limit : Type :=
| Finite (n : N)
| Infinity.

(** [x > l]. *)
Definition exceeds (x : N) (l : limit) : bool :=
  match l with
  | Finite n => N.ltb n x
  | Infinity => false
  end.

(** ** Configuration *)

(** The fields of [Config] read by the modelled functions.  An absent
    optional field is [None]. *)
Record Config : Type := mkConfig {
  url : string;
  outputFileName : string;
  maxFileSize : option N;
  maxTokens : option N
}.

(** [{ ...config, outputFileName: `${urlKey}.json` }]. *)
Definition withOutputFileName (config : Config) (name : string) : Config :=
  {| url := url config;
     outputFileName := name;
     maxFileSize := maxFileSize config;
     maxTokens := maxTokens config |}.

(** [urlConfig.maxFileSize ? urlConfig.maxFileSize * 1024 * 1024 : Infinity]. *)
Definition maxBytes (urlConfig : Config) : limit :=
  match maxFileSize urlConfig with
  | Some m => if N.eqb m 0 then Infinity else Finite (m * 1024 * 1024)
  | None => Infinity
  end.

(** [urlConfig.maxTokens || Infinity]. *)
Definition tokenLimit (urlConfig : Config) : limit :=
  match maxTokens urlConfig with
  | Some t => if N.eqb t 0 then Infinity else Finite t
  | None => Infinity
  end.

(** [x > urlConfig.maxTokens!]; a comparison with [undefined] is false. *)
Definition overMaxTokens (x : N) (urlConfig : Config) : bool :=
  match maxTokens urlConfig with
  | Some t => N.ltb t x
  | None => false
  end.

(** ** The batching state of one group *)

(** The variables captured by the closures of one group, the [writeFile]
    calls made so far ([written], oldest first, as name and content) and,
    as a ghost history, the batches handed to them ([flushed]). *)
Record state : Type := mkState {
  currentResults : list json;
  currentSize : N;
  fileCounter : N;
  estimatedTokens : N;
  written : list (string * string);
  flushed : list (list json)
}.

Definition pushResult (data : json) (st : state) : state :=
  mkState (currentResults st ++ [data])%list (currentSize st) (fileCounter st)
    (estimatedTokens st) (written st) (flushed st).

Definition setTokens (t : N) (st : state) : state :=
  mkState (currentResults st) (currentSize st) (fileCounter st)
    t (written st) (flushed st).

Definition addSize (b : N) (st : state) : state :=
  mkState (currentResults st) (currentSize st + b) (fileCounter st)
    (estimatedTokens st) (written st) (flushed st).

(** [currentResults.length > 0]. *)
Definition nonEmpty (batch : list json) : bool :=
  match batch with
  | [] => false
  | _ :: _ => true
  end.

(** The state at the start of a group. *)
Definition initState : state := mkState [] 0 1 0 [] [].

(** How an asynchronous loop ends: it runs to its end, or a rejected
    promise leaves it with the state reached so far. *)
Inductive outcome : Type :=
| Finished (st : state)
| Rejected (st : state).

(** A [Map<string, string[]>], in insertion order. *)
Definition fileMap : Type := list (string * list string).

Module FileMap.

Fixpoint has (k : string) (m : fileMap) : bool :=
  match m with
  | [] => false
  | (k', _) :: rest => if String.eqb k k' then true else has k rest
  end.

(** [m.get(k)!.push(file)]. *)
Fixpoint push (k file : string) (m : fileMap) : fileMap :=
  match m with
  | [] => []
  | (k', files) :: rest =>
      if String.eqb k k' then (k', (files ++ [file])%list) :: rest
      else (k', files) :: push k file rest
  end.

(** [if (!m.has(k)) m.set(k, []); m.get(k)!.push(file)]. *)
Definition add (k file : string) (m : fileMap) : fileMap :=
  push k file (if has k m then m else (m ++ [(k, [])])%list).

End FileMap.

(** What [write] is given: one configuration or an array of them. *)
Inductive configs : Type :=
| Single (config : Config)
| Batch (configList : list Config).

(** What [write] resolves to. *)
Inductive paths : Type :=
| OnePath (p : string)
| ManyPaths (ps : list string).

(** How [crawlSingle] starts the crawler: not at all ([NO_CRAWL]), with a
    failed sitemap download, or with the given initial requests. *)
Inductive frontier : Type :=
| NotStarted
| SeedFailed
| Run (requests : list string).

(** ** The aggregation phase: [writeSingle] and [write] *)

Section Aggregation.

(** [isWithinTokenLimit(text, limit)] of gpt-tokenizer, when it returns:
    [Some t] is the number [t], [None] is [false]. *)
Variable isWithinTokenLimit : string -> limit -> option N.

(** Whether the call [isWithinTokenLimit(text, limit)] throws instead of
    returning, as the library does on a text that holds a special
    token. *)
Variable estimatorThrows : string -> limit -> bool.

(** [readFile(file, "utf-8")]; [None] when the promise is rejected. *)
Variable readFile : string -> option string.

(** [JSON.parse(text)]; [None] when it throws. *)
Variable JSON_parse : string -> option json.

(** [new URL(value)], as the pair of its [hostname] and [pathname]; [None]
    when the constructor throws. *)
Variable newURL : json -> option (string * string).

(** The result of [glob("storage/datasets/default/*.json")] in the call
    of [writeSingle]; what the call writes does not change the files it
    reads afterwards. *)
Variable jsonFiles : list string.

Section Group.

Variable urlConfig : Config.

Definition nextFileName (st : state) : string :=
  Str.stripJsonSuffix (outputFileName urlConfig)
  ++ "-" ++ Str.ofN (fileCounter st) ++ ".json".

Definition writeBatchToFile (st : state) : state :=
  {| currentResults := [];
     currentSize := 0;
     fileCounter := fileCounter st + 1;
     estimatedTokens := estimatedTokens st;
     written :=
       (written st
        ++ [(nextFileName st,
             Json.stringifyIndent2 (JArray (currentResults st)))])%list;
     flushed := (flushed st ++ [currentResults st])%list |}.

(** The statement [if (typeof tokenCount === "number") { ... }]. *)
Definition tokenBranch (data : json) (tokenCount : option N) (st : state)
    : state :=
  match tokenCount with
  | Some t =>
      if overMaxTokens (estimatedTokens st + t) urlConfig then
        let st' :=
          if nonEmpty (currentResults st) then writeBatchToFile st else st in
        pushResult data (setTokens (N.div t 2) st')
      else
        setTokens (estimatedTokens st + t) (pushResult data st)
  | None => st
  end.

(** The statements [currentSize += ...; if (currentSize > maxBytes) ...]. *)
Definition byteBranch (b : N) (st : state) : state :=
  let st' := addSize b st in
  if exceeds (currentSize st') (maxBytes urlConfig)
  then writeBatchToFile st'
  else st'.

(** The call of the estimator is the first thing [addContentOrSplit] does;
    this is the function when that call returns.  When it throws nothing
    has been changed, and the loop that awaits the function rejects
    ([processFiles]). *)
Definition addContentOrSplit (data : json) (st : state) : state :=
  let contentString := Json.stringify data in
  let tokenCount := isWithinTokenLimit contentString (tokenLimit urlConfig) in
  byteBranch (Str.byteLength contentString) (tokenBranch data tokenCount st).

(** [for (const file of files) { ... await addContentOrSplit(data); }]. *)
Fixpoint processFiles (files : list string) (st : state) : outcome :=
  match files with
  | [] => Finished st
  | file :: rest =>
      match readFile file with
      | None => Rejected st
      | Some fileContent =>
          match JSON_parse fileContent with
          | None => Rejected st
          | Some data =>
              if estimatorThrows (Json.stringify data) (tokenLimit urlConfig)
              then Rejected st
              else processFiles rest (addContentOrSplit data st)
          end
      end
  end.

(** [if (currentResults.length > 0) await writeBatchToFile();]. *)
Definition flushRemaining (st : state) : state :=
  if nonEmpty (currentResults st) then writeBatchToFile st else st.

End Group.

(** The body of [for (const [urlKey, files] of filesByUrl.entries())]. *)
Definition processGroup (config : Config) (urlKey : string)
    (files : list string) : outcome :=
  let urlConfig := withOutputFileName config (urlKey ++ ".json") in
  match processFiles urlConfig files initState with
  | Finished st => Finished (flushRemaining urlConfig st)
  | Rejected st => Rejected st
  end.

(** The loop over the groups; the boolean tells whether it ran to its end,
    the list is what [writeFile] was called with. *)
Fixpoint processGroups (config : Config) (groups : fileMap)
    (log : list (string * string)) : list (string * string) * bool :=
  match groups with
  | [] => (log, true)
  | (urlKey, files) :: rest =>
      match processGroup config urlKey files with
      | Finished st => processGroups config rest (log ++ written st)%list
      | Rejected st => ((log ++ written st)%list, false)
      end
  end.

(** [data.sourceUrl || data.url]; [None] when the access throws. *)
Definition sourceUrlOf (data : json) : option (option json) :=
  match Json.getProp data "sourceUrl", Json.getProp data "url" with
  | Some a, Some b => Some (Json.orElse a b)
  | _, _ => None
  end.

(** [`${hostname}${pathname}`] of [writeSingle] and of the earlier [write]. *)
Definition cleanUrlOf (hostname pathname : string) : string :=
  hostname
  ++ Str.stripLeadingUnderscore (Str.replaceSlashes pathname).

(** The key under which the first loop of [writeSingle] files [file]: the
    [try] block, its [else] and its [catch] all use [configKey]. *)
Definition keyOf (config : Config) (file : string) : string :=
  let configKey := Str.stripJsonSuffix (outputFileName config) in
  match readFile file with
  | None => configKey
  | Some fileContent =>
      match JSON_parse fileContent with
      | None => configKey
      | Some data =>
          match sourceUrlOf data with
          | None => configKey
          | Some sourceUrl =>
              if Json.truthy sourceUrl then
                match option_map newURL sourceUrl with
                | Some (Some (hostname, pathname)) =>
                    let cleanUrl := cleanUrlOf hostname pathname in
                    configKey
                | _ => configKey
                end
              else configKey
          end
      end
  end.

(** [for (const file of jsonFiles) { try { ... } catch { ... } }]. *)
Definition categorize (config : Config) (files : list string) : fileMap :=
  fold_left
    (fun filesByUrl file => FileMap.add (keyOf config file) file filesByUrl)
    files [].

Definition writeSingle (config : Config)
    : list (string * string) * option string :=
  let filesByUrl := categorize config jsonFiles in
  match processGroups config filesByUrl [] with
  | (log, true) => (log, Some (outputFileName config))
  | (log, false) => (log, None)
  end.

End Aggregation.

(** What one call of [writeSingle] finds in the dataset directory: the
    result of its [glob] and what [readFile] returns during the call. *)
Record dataset : Type := mkDataset {
  globbed : list string;
  contentOf : string -> option string
}.

Section Write.

Variable isWithinTokenLimit : string -> limit -> option N.
Variable estimatorThrows : string -> limit -> bool.
Variable JSON_parse : string -> option json.
Variable newURL : json -> option (string * string).

(** The dataset directory as a call of [writeSingle] finds it once the
    files [log] have been written by the calls before it: every call runs
    [glob] again, so a later configuration also finds the artifacts an
    earlier one wrote into the dataset directory. *)
Variable datasetAfter : list (string * string) -> dataset.

(** The loop of [write] over an array of configurations. *)
Fixpoint writeEach (configList : list Config) (log : list (string * string))
    (results : list string) : list (string * string) * option (list string) :=
  match configList with
  | [] => (log, Some results)
  | singleConfig :: rest =>
      match writeSingle isWithinTokenLimit estimatorThrows
              (contentOf (datasetAfter log)) JSON_parse newURL
              (globbed (datasetAfter log)) singleConfig
      with
      | (w, Some result) =>
          writeEach rest (log ++ w)%list (results ++ [result])%list
      | (w, None) => ((log ++ w)%list, None)
      end
  end.

Definition write (config : configs)
    : list (string * string) * option paths :=
  match config with
  | Batch configList =>
      match writeEach configList [] [] with
      | (log, Some results) => (log, Some (ManyPaths results))
      | (log, None) => (log, None)
      end
  | Single c =>
      match writeSingle isWithinTokenLimit estimatorThrows
              (contentOf (datasetAfter [])) JSON_parse newURL
              (globbed (datasetAfter [])) c
      with
      | (log, Some result) => (log, Some (OnePath result))
      | (log, None) => (log, None)
      end
  end.

End Write.

(** ** The earlier single-configuration [write] *)

Module Legacy.

Section Aggregation.

Variable isWithinTokenLimit : string -> limit -> option N.
Variable estimatorThrows : string -> limit -> bool.
Variable readFile : string -> option string.
Variable JSON_parse : string -> option json.
Variable newURL : json -> option (string * string).
Variable jsonFiles : list string.

(** The key under which the first loop of the earlier [write] files
    [file]. *)
Definition urlKeyOf (file : string) : string :=
  match readFile file with
  | None => "default"
  | Some fileContent =>
      match JSON_parse fileContent with
      | None => "default"
      | Some data =>
          match sourceUrlOf data with
          | None => "default"
          | Some sourceUrl =>
              if Json.truthy sourceUrl then
                match option_map newURL sourceUrl with
                | Some (Some (hostname, pathname)) =>
                    cleanUrlOf hostname pathname
                | _ => "default"
                end
              else "default"
          end
      end
  end.

Definition categorizeByUrl (files : list string) : fileMap :=
  fold_left (fun filesByUrl file => FileMap.add (urlKeyOf file) file filesByUrl)
    files [].

(** The earlier [write] returns nothing; the boolean tells whether it ran
    to its end. *)
Definition write (config : Config) : list (string * string) * bool :=
  processGroups isWithinTokenLimit estimatorThrows readFile JSON_parse config
    (categorizeByUrl jsonFiles) [].

End Aggregation.

End Legacy.

(** ** Seed resolution in [crawlSingle] *)

Section Crawl.

(** [downloadListOfUrls({ url })]; [None] when the download fails. *)
Variable downloadListOfUrls : string -> option (list string).

Definition SITEMAP_SUFFIX : string := "sitemap.xml".

Definition isUrlASitemap (url : string) : bool :=
  Str.endsWith url SITEMAP_SUFFIX.

(** The requests the crawler of [crawlSingle] is started with.  [noCrawl]
    is [process.env.NO_CRAWL === "true"]; the two branches on [isArray]
    differ only in the request queue given to the crawler. *)
Definition crawlSingle (noCrawl : bool) (config : Config) (isArray : bool)
    : frontier :=
  if noCrawl then NotStarted
  else if isArray then
    let url := url config in
    if isUrlASitemap url then
      match downloadListOfUrls url with
      | Some listOfUrls => Run listOfUrls
      | None => SeedFailed
      end
    else Run [url]
  else
    if isUrlASitemap (url config) then
      match downloadListOfUrls (url config) with
      | Some listOfUrls => Run listOfUrls
      | None => SeedFailed
      end
    else Run [url config].

End Crawl.

(** ** Derived notions used in the statements *)

Section Derived.

Variable isWithinTokenLimit : string -> limit -> option N.
Variable readFile : string -> option string.
Variable JSON_parse : string -> option json.

(** [JSON.parse(await readFile(file, "utf-8"))]. *)
Definition loadFile (file : string) : option json :=
  match readFile file with
  | Some fileContent => JSON_parse fileContent
  | None => None
  end.

(** The records of [files], when every one of them can be read and
    parsed. *)
Fixpoint loadAll (files : list string) : option (list json) :=
  match files with
  | [] => Some []
  | file :: rest =>
      match loadFile file, loadAll rest with
      | Some data, Some records => Some (data :: records)
      | _, _ => None
      end
  end.

(** The batching routine fed [records] in arrival order. *)
Definition feed (urlConfig : Config) (records : list json) (st : state)
    : state :=
  fold_left
    (fun s data => addContentOrSplit isWithinTokenLimit urlConfig data s)
    records st.


End Derived.

(** The byte length the batching routine accounts for a record. *)
Definition recordBytes (data : json) : N :=
  Str.byteLength (Json.stringify data).

(** The accounted byte length of a batch. *)
Definition batchBytes (batch : list json) : N :=
  fold_right (fun data acc => recordBytes data + acc)%N 0%N batch.


Definition stateOf (o : outcome) : state :=
  match o with
  | Finished st => st
  | Rejected st => st
  end.

(** The name of the [i]-th artifact of the group [urlKey]. *)
Definition artifactName (urlKey : string) (i : N) : string :=
  urlKey ++ "-" ++ Str.ofN i ++ ".json".

(** The [writeFile] calls that flush [batches] as the artifacts numbered
    [i], [i + 1], ... of the group [urlKey]. *)
Fixpoint artifactsFrom (urlKey : string) (i : N) (batches : list (list json))
    : list (string * string) :=
  match batches with
  | [] => []
  | batch :: rest =>
      (artifactName urlKey i, Json.stringifyIndent2 (JArray batch))
      :: artifactsFrom urlKey (i + 1) rest
  end.

(** Every record a state holds, flushed or pending, in order. *)
Definition contents (st : state) : list json :=
  (concat (flushed st) ++ currentResults st)%list.

(** The accounted bytes of a batch without its last record are within the
    ceiling. *)
Definition butLastWithin (ceiling : limit) (batch : list json) : bool :=
  negb (exceeds (batchBytes (removelast batch)) ceiling).

(** The estimator throws on none of the records. *)
Definition quiet (estimatorThrows : string -> limit -> bool)
    (urlConfig : Config) (records : list json) : bool :=
  forallb
    (fun data =>
       negb (estimatorThrows (Json.stringify data) (tokenLimit urlConfig)))
    records.


(** Whether every file of the list can be read and parsed. *)
Definition allLoad (readFile : string -> option string)
    (JSON_parse : string -> option json) (files : list string) : bool :=
  match loadAll readFile JSON_parse files with
  | Some _ => true
  | None => false
  end.

(** ** Invariants of the batching state *)

(** Between two calls of the batching routine: the running byte total
    covers the pending batch and is within the ceiling, and every flushed
    batch is within the ceiling but for its last record. *)
Definition accounted (urlConfig : Config) (st : state) : Prop :=
  (batchBytes (currentResults st) <= currentSize st)%N
  /\ exceeds (currentSize st) (maxBytes urlConfig) = false
  /\ Forall (fun batch => butLastWithin (maxBytes urlConfig) batch = true)
       (flushed st).

(** After the token statement, before [b] is added to the byte total. *)
Definition accountedBut (urlConfig : Config) (b : N) (st : state) : Prop :=
  (batchBytes (currentResults st) <= currentSize st + b)%N
  /\ (batchBytes (removelast (currentResults st)) <= currentSize st)%N
  /\ exceeds (currentSize st) (maxBytes urlConfig) = false
  /\ Forall (fun batch => butLastWithin (maxBytes urlConfig) batch = true)
       (flushed st).

(** The files written so far are the flushed batches, numbered from one,
    and the counter is the number of the next one. *)
Definition numbered (urlKey : string) (st : state) : Prop :=
  written st = artifactsFrom urlKey 1 (flushed st)
  /\ fileCounter st = (1 + N.of_nat (List.length (flushed st)))%N.

(** ** Sample collaborators and data *)

Module Sample.

(** A token estimator with the contract of [isWithinTokenLimit]: the count
    when it does not exceed the limit, [false] otherwise.  It counts one
    token for every four bytes, rounded up. *)
Definition tokens (text : string) : N := N.div (Str.byteLength text + 3) 4.

Definition isWithinTokenLimit (text : string) (l : limit) : option N :=
  if exceeds (tokens text) l then None else Some (tokens text).

(** None of the sample texts holds a special token: the estimator never
    throws. *)
Definition estimatorThrows (text : string) (l : limit) : bool := false.

(** A record as the request handler pushes it. *)
Definition page (title loadedUrl html : string) : json :=
  JObject [("title", JString title); ("url", JString loadedUrl);
           ("html", JString html); ("sourceUrl", JString loadedUrl)].

Definition pageA : json := page "A" "https://example.com/a/b" "alpha".
Definition pageB : json :=
  page "B" "https://example.com/b"
    "a page whose text is much longer than the text of the other pages".
Definition pageC : json := page "C" "https://example.com/c" "gamma".

(** A dataset directory: three stored records, a file that is not JSON;
    any other name cannot be read. *)
Definition store : list (string * string) :=
  [("1.json", Json.stringifyIndent2 pageA);
   ("2.json", Json.stringifyIndent2 pageB);
   ("3.json", Json.stringifyIndent2 pageC);
   ("bad.json", "{not json")].

Fixpoint assoc {A : Type} (k : string) (l : list (string * A)) : option A :=
  match l with
  | [] => None
  | (k', v) :: rest => if String.eqb k k' then Some v else assoc k rest
  end.

Definition readFile (file : string) : option string := assoc file store.

(** [JSON.parse] on the texts of the three stored records; every other
    text of the sample is not JSON. *)
Definition JSON_parse (text : string) : option json :=
  assoc text
    [(Json.stringifyIndent2 pageA, pageA);
     (Json.stringifyIndent2 pageB, pageB);
     (Json.stringifyIndent2 pageC, pageC)].

(** A dataset directory holding [files], into which the aggregation writes
    no artifact: the output base names of the sample lie outside it, so
    every call of [writeSingle] finds the same files. *)
Definition datasetAfter (files : list string)
    (log : list (string * string)) : dataset :=
  mkDataset files readFile.

(** [new URL] on strings of the shape [scheme://host/path]; it stands for
    a constructor that throws on everything else. *)
Definition newURL (v : json) : option (string * string) :=
  match v with
  | JString s =>
      match String.index 0 "://" s with
      | Some i =>
          let rest := String.substring (i + 3) (String.length s - (i + 3)) s in
          match String.index 0 "/" rest with
          | Some j =>
              if Nat.eqb j 0 then None
              else Some (String.substring 0 j rest,
                         String.substring j (String.length rest - j) rest)
          | None => if String.eqb rest "" then None else Some (rest, "/")
          end
      | None => None
      end
  | _ => None
  end.

(** A text of [n] bytes and a record carrying it. *)
Fixpoint pad (n : nat) : string :=
  match n with
  | O => EmptyString
  | S k => String "a"%char (pad k)
  end.

Definition bigPage (title : string) (n : N) : json :=
  page title "https://example.com/big" (pad (N.to_nat n)).

Definition bigX : json := bigPage "X" 600000.
Definition bigY : json := bigPage "Y" 600000.
Definition bigZ : json := bigPage "Z" 600000.

(** No ceiling, a token ceiling only, and both ceilings. *)
Definition cfgPlain : Config :=
  mkConfig "https://example.com/sitemap.xml" "output.json" None None.
Definition cfgTokens : Config :=
  mkConfig "https://example.com/sitemap.xml" "output.json" None (Some 30%N).
Definition cfgBoth : Config :=
  mkConfig "https://example.com/sitemap.xml" "output.json"
    (Some 1%N) (Some 400000%N).

(** The state of the group once the routine was fed [pageA], and once it
    was fed the two large records [bigX] and [bigY] under [cfgBoth]. *)
Definition afterA : state :=
  feed isWithinTokenLimit cfgTokens [pageA] initState.
Definition afterXY : state :=
  feed isWithinTokenLimit cfgBoth [bigX; bigY] initState.

(** A sitemap download. *)
Definition downloadListOfUrls (u : string) : option (list string) :=
  if String.eqb u "https://example.com/sitemap.xml"
  then Some ["https://example.com/a/b"; "https://example.com/c"]
  else None.

End Sample.

(** ** Further parts of the module *)

(** No hyphen occurs in the string. *)
Fixpoint hyphenFree (s : string) : bool :=
  match s with
  | EmptyString => true
  | String c r => negb (Ascii.eqb c "-"%char) && hyphenFree r
  end.

(** [filesByUrl.get(k)]. *)
Fixpoint filesUnder (k : string) (m : fileMap) : option (list string) :=
  match m with
  | [] => None
  | (k', files) :: rest =>
      if String.eqb k k' then Some files else filesUnder k rest
  end.

(** The files of [files] that [key] files under [k], in their order. *)
Definition filesWithKey (key : string -> string) (k : string)
    (files : list string) : list string :=
  filter (fun file => String.eqb (key file) k) files.

(** The token count the estimator returned for a record that was
    appended. *)
Definition recordTokens (isWithinTokenLimit : string -> limit -> option N)
    (urlConfig : Config) (data : json) : N :=
  match isWithinTokenLimit (Json.stringify data) (tokenLimit urlConfig) with
  | Some t => t
  | None => 0
  end.

(** The summed token counts of the records of a batch. *)
Definition batchTokens (isWithinTokenLimit : string -> limit -> option N)
    (urlConfig : Config) (batch : list json) : N :=
  fold_right
    (fun data acc => recordTokens isWithinTokenLimit urlConfig data + acc)%N
    0%N batch.

(** The contract of [isWithinTokenLimit]: a count it returns does not
    exceed the limit it was given. *)
Definition withinLimit (isWithinTokenLimit : string -> limit -> option N)
    : Prop :=
  forall text l t, isWithinTokenLimit text l = Some t -> exceeds t l = false.

(** Under a token ceiling [T]: the running estimate is within [T], the
    pending batch holds at most half of [T], rounded up, more than the
    estimate, and every flushed batch holds at most [T] and a half. *)
Definition tokenBounded (isWithinTokenLimit : string -> limit -> option N)
    (urlConfig : Config) (T : N) (st : state) : Prop :=
  (batchTokens isWithinTokenLimit urlConfig (currentResults st)
   <= estimatedTokens st + (T + 1) / 2)%N
  /\ (estimatedTokens st <= T)%N
  /\ Forall
       (fun batch =>
          (batchTokens isWithinTokenLimit urlConfig batch
           <= T + (T + 1) / 2)%N)
       (flushed st).

(** *** [crawl] over one configuration or an array of them *)

(** One call of [crawlSingle] as [crawl] makes it: the name of the request
    queue given to the crawler ([None] when the crawler is created without
    one), how the crawler was started, and whether the queue was dropped
    afterwards. *)
Record session : Type := mkSession {
  queueName : option string;
  started : frontier;
  queueDropped : bool
}.

Section CrawlAll.

Variable downloadListOfUrls : string -> option (list string).

(** [process.env.NO_CRAWL === "true"]. *)
Variable noCrawl : bool.

(** The loop of [crawl] over an array; [rqNo] is its counter.  The boolean
    tells whether the loop ran to its end: a failed sitemap download
    rejects out of [crawlSingle] and of the loop.  The configurations are
    taken to be valid and a started crawler to run to its end. *)
Fixpoint crawlEach (configList : list Config) (rqNo : N)
    : list session * bool :=
  match configList with
  | [] => ([], true)
  | singleConfig :: rest =>
      let rq := "rq_" ++ Str.ofN rqNo in
      match crawlSingle downloadListOfUrls noCrawl singleConfig true with
      | SeedFailed => ([mkSession (Some rq) SeedFailed false], false)
      | start =>
          let (sessions, completed) := crawlEach rest (rqNo + 1) in
          (mkSession (Some rq) start true :: sessions, completed)
      end
  end.

Definition crawl (config : configs) : list session * bool :=
  match config with
  | Batch configList => crawlEach configList 0
  | Single c =>
      match crawlSingle downloadListOfUrls noCrawl c false with
      | SeedFailed => ([mkSession None SeedFailed false], false)
      | start => ([mkSession None start false], true)
      end
  end.

End CrawlAll.

(** *** The revision that writes one file per page *)

Module Direct.

(** [\w] of a regular expression without the unicode flag. *)
Definition isWordChar (c : ascii) : bool :=
  let n := nat_of_ascii c in
  (Nat.leb 48 n && Nat.leb n 57)
  || (Nat.leb 65 n && Nat.leb n 90)
  || (Nat.leb 97 n && Nat.leb n 122)
  || Nat.eqb n 95.

(** A character the class [[^\w\-_.]] does not match. *)
Definition isSafeChar (c : ascii) : bool :=
  isWordChar c || Ascii.eqb c "-"%char || Ascii.eqb c "_"%char
  || Ascii.eqb c "."%char.

(** [s.replace(/[^\w\-_.]/g, "_")]; the path name of a URL is ASCII. *)
Fixpoint replaceUnsafe (s : string) : string :=
  match s with
  | EmptyString => EmptyString
  | String c r =>
      String (if isSafeChar c then c else "_"%char) (replaceUnsafe r)
  end.

(** The clean path name of [generateFilenameFromUrl]. *)
Definition cleanPathname (pathname : string) : string :=
  replaceUnsafe (Str.stripLeadingUnderscore (Str.replaceSlashes pathname)).

(** Every character of the string is safe. *)
Fixpoint allSafe (s : string) : bool :=
  match s with
  | EmptyString => true
  | String c r => isSafeChar c && allSafe r
  end.

(** The record the request handler builds for a page. *)
Definition pageData (title loadedUrl html : string) : json :=
  JObject [("title", JString title); ("url", JString loadedUrl);
           ("html", JString html); ("sourceUrl", JString loadedUrl)].

Section Files.

Variable newURL : json -> option (string * string).

(** [new Date().getTime()] at the call. *)
Variable timestamp : N.

(** [url] is [None] when the argument is [undefined], on which [new URL]
    throws. *)
Definition generateFilenameFromUrl (baseFilename : string)
    (url : option json) : string :=
  match option_map newURL url with
  | Some (Some (hostname, pathname)) =>
      Str.stripJsonSuffix baseFilename ++ "_" ++ hostname
      ++ cleanPathname pathname ++ ".json"
  | _ =>
      Str.stripJsonSuffix baseFilename ++ "_" ++ Str.ofN timestamp ++ ".json"
  end.

(** The [writeFile] call of [writePageToFile], as name and content; the
    name is also what the function returns.  [None] when reading the
    source of [data] throws. *)
Definition writePageToFile (config : Config) (data : json)
    : option (string * string) :=
  match sourceUrlOf data with
  | None => None
  | Some sourceUrl =>
      let filename :=
        generateFilenameFromUrl (outputFileName config) sourceUrl in
      Some (filename, Json.stringifyIndent2 data)
  end.

End Files.

End Direct.

(** *** More sample data *)

Module SampleMore.

(** A record of more than a mebibyte and of more than 400000 tokens. *)
Definition bigW : json := Sample.bigPage "W" 2000000.

(** A page of 19 tokens. *)
Definition pageD : json := Sample.page "D" "https://e.io/d" "".

(** A token ceiling of 31. *)
Definition cfgTokens31 : Config :=
  mkConfig "https://example.com/sitemap.xml" "output.json" None (Some 31%N).

(** A byte ceiling only. *)
Definition cfgBytes : Config :=
  mkConfig "https://example.com/sitemap.xml" "output.json" (Some 1%N) None.

(** A configuration whose sitemap cannot be downloaded. *)
Definition cfgBroken : Config :=
  mkConfig "https://broken.example/sitemap.xml" "broken.json" None None.

Definition cfgDirect : Config :=
  mkConfig "https://example.com/a/b" "direct.json" None None.

(** A page whose text holds a special token of the tokenizer. *)
Definition pageE : json :=
  Sample.page "E" "https://e.io/e" "<|endoftext|>".

(** An estimator that throws as the tokenizer does with its default
    options: on a text that holds the special token [<|endoftext|>]. *)
Definition estimatorThrows (text : string) (l : limit) : bool :=
  match String.index 0 "<|endoftext|>" text with
  | Some _ => true
  | None => false
  end.

(** A further dataset. *)
Definition store : list (string * string) :=
  [("1.json", Json.stringifyIndent2 Sample.pageA);
   ("3.json", Json.stringifyIndent2 Sample.pageC);
   ("4.json", Json.stringifyIndent2 pageD);
   ("5.json", Json.stringifyIndent2 pageE)].

Definition readFile (file : string) : option string :=
  Sample.assoc file store.

Definition JSON_parse (text : string) : option json :=
  Sample.assoc text
    [(Json.stringifyIndent2 Sample.pageA, Sample.pageA);
     (Json.stringifyIndent2 Sample.pageC, Sample.pageC);
     (Json.stringifyIndent2 pageD, pageD);
     (Json.stringifyIndent2 pageE, pageE)].

(** A dataset directory of two large records and a small one. *)
Definition largeStore : list (string * string) :=
  [("x.json", Json.stringifyIndent2 Sample.bigX);
   ("y.json", Json.stringifyIndent2 Sample.bigY);
   ("1.json", Json.stringifyIndent2 Sample.pageA)].

Definition readLarge (file : string) : option string :=
  Sample.assoc file largeStore.

Definition parseLarge (text : string) : option json :=
  Sample.assoc text
    [(Json.stringifyIndent2 Sample.pageA, Sample.pageA);
     (Json.stringifyIndent2 Sample.bigX, Sample.bigX);
     (Json.stringifyIndent2 Sample.bigY, Sample.bigY)].

End SampleMore.

(** * Properties *)

(** ** Strings *)

Module StrFacts.

Lemma length_app (a b : string) :
  String.length (a ++ b) = String.length a + String.length b.
Proof.
  induction a as [|c a IH]; simpl; [reflexivity | now rewrite IH].
Qed.

Lemma byteLength_app (a b : string) :
  Str.byteLength (a ++ b) = (Str.byteLength a + Str.byteLength b)%N.
Proof.
  unfold Str.byteLength. rewrite length_app. lia.
Qed.

Lemma substring_all (s : string) : String.substring 0 (String.length s) s = s.
Proof.
  induction s as [|c s IH]; simpl; [reflexivity | now rewrite IH].
Qed.

(** The part of [p ++ q] after [p]. *)
Lemma substring_skip (p q : string) :
  String.substring (String.length p) (String.length q) (p ++ q) = q.
Proof.
  induction p as [|c p IH]; simpl; [apply substring_all | exact IH].
Qed.

(** The part of [p ++ q] before [q]. *)
Lemma substring_take (p q : string) :
  String.substring 0 (String.length p) (p ++ q) = p.
Proof.
  induction p as [|c p IH]; simpl.
  - destruct q; reflexivity.
  - now rewrite IH.
Qed.

(** A string is its first [i] characters followed by the others. *)
Lemma substring_split (s : string) (i : nat) :
  i <= String.length s ->
  s = String.substring 0 i s
      ++ String.substring i (String.length s - i) s.
Proof.
  revert i. induction s as [|c s IH]; intros i Hi; simpl in *.
  - destruct i; [reflexivity | lia].
  - destruct i as [|i]; simpl.
    + now rewrite substring_all.
    + f_equal. apply IH. lia.
Qed.

Lemma endsWith_app (p suf : string) : Str.endsWith (p ++ suf) suf = true.
Proof.
  unfold Str.endsWith. rewrite length_app.
  replace (Nat.leb (String.length suf) (String.length p + String.length suf))
    with true by (symmetry; apply Nat.leb_le; lia).
  replace (String.length p + String.length suf - String.length suf)
    with (String.length p) by lia.
  rewrite substring_skip. apply String.eqb_refl.
Qed.

Lemma endsWith_inv (s suf : string) :
  Str.endsWith s suf = true -> exists p, s = p ++ suf.
Proof.
  unfold Str.endsWith.
  destruct (Nat.leb (String.length suf) (String.length s)) eqn:Hle;
    [|discriminate].
  apply Nat.leb_le in Hle. intro H. apply String.eqb_eq in H.
  exists (String.substring 0 (String.length s - String.length suf) s).
  pose proof (substring_split s (String.length s - String.length suf)) as Hs.
  replace (String.length s - (String.length s - String.length suf))
    with (String.length suf) in Hs by lia.
  rewrite H in Hs. apply Hs. lia.
Qed.

Lemma endsWith_iff (s suf : string) :
  Str.endsWith s suf = true <-> exists p, s = p ++ suf.
Proof.
  split; [apply endsWith_inv|].
  intros [p ->]. apply endsWith_app.
Qed.

(** Removing the suffix that was just added gives the key back. *)
Lemma stripJsonSuffix_app (k : string) : Str.stripJsonSuffix (k ++ ".json") = k.
Proof.
  unfold Str.stripJsonSuffix. rewrite endsWith_app, length_app.
  replace (String.length k + String.length ".json" - 5) with (String.length k)
    by (simpl; lia).
  apply substring_take.
Qed.


End StrFacts.

(** ** The batching routine keeps the measured records, in order *)

Section Partition.

Variable isWithinTokenLimit : string -> limit -> option N.
Variable estimatorThrows : string -> limit -> bool.
Variable readFile : string -> option string.
Variable JSON_parse : string -> option json.
Variable urlConfig : Config.

Lemma contents_flush (st : state) :
  contents (writeBatchToFile urlConfig st) = contents st.
Proof.
  unfold contents, writeBatchToFile; simpl.
  rewrite concat_app; simpl. now rewrite !List.app_nil_r.
Qed.


Lemma pending_flushRemaining (st : state) :
  currentResults (flushRemaining urlConfig st) = [].
Proof.
  unfold flushRemaining.
  destruct (currentResults st) eqn:E; simpl; [exact E | reflexivity].
Qed.



Lemma contents_byteBranch (b : N) (st : state) :
  contents (byteBranch urlConfig b st) = contents st.
Proof.
  unfold byteBranch.
  destruct (exceeds (currentSize (addSize b st)) (maxBytes urlConfig));
    [rewrite contents_flush|]; reflexivity.
Qed.



(** The loop over the files of a group is the batching routine fed their
    records, when every file can be read and parsed and the estimator
    throws on none of the records. *)
Lemma processFiles_feed (files : list string) (records : list json)
    (st : state) :
  loadAll readFile JSON_parse files = Some records ->
  quiet estimatorThrows urlConfig records = true ->
  processFiles isWithinTokenLimit estimatorThrows readFile JSON_parse
    urlConfig files st
  = Finished (feed isWithinTokenLimit urlConfig records st).
Proof.
  revert records st.
  induction files as [|f files IH]; intros records st H Q; simpl in *.
  - now inversion H.
  - unfold loadFile in H.
    destruct (readFile f) as [c|]; [|discriminate].
    destruct (JSON_parse c) as [d|]; [|discriminate].
    destruct (loadAll readFile JSON_parse files) as [rs|]; [|discriminate].
    inversion H; subst. simpl in Q. apply andb_prop in Q.
    destruct Q as [Qd Qrs]. apply negb_true_iff in Qd. rewrite Qd.
    unfold feed; simpl. now apply IH.
Qed.

(** A file that cannot be read or parsed makes the loop reject. *)
Lemma processFiles_rejects (files : list string) (st : state) :
  loadAll readFile JSON_parse files = None ->
  exists st',
    processFiles isWithinTokenLimit estimatorThrows readFile JSON_parse
      urlConfig files st
    = Rejected st'.
Proof.
  revert st. induction files as [|f files IH]; intros st H; simpl in *.
  - discriminate.
  - unfold loadFile in H.
    destruct (readFile f) as [c|]; [|now eexists].
    destruct (JSON_parse c) as [d|]; [|now eexists].
    destruct (estimatorThrows (Json.stringify d) (tokenLimit urlConfig));
      [now eexists|].
    destruct (loadAll readFile JSON_parse files) as [rs|]; [discriminate|].
    now apply IH.
Qed.


End Partition.

(** ** Bytes of the sample records *)

Module SampleFacts.

Lemma escape_pad (n : nat) : Json.escape (Sample.pad n) = Sample.pad n.
Proof.
  induction n as [|n IH]; simpl; [reflexivity | now rewrite IH].
Qed.

Lemma length_pad (n : nat) : String.length (Sample.pad n) = n.
Proof.
  induction n as [|n IH]; simpl; [reflexivity | now rewrite IH].
Qed.

(** The accounted bytes of a page grow with its escaped text. *)
Lemma recordBytes_page (title loadedUrl html : string) :
  recordBytes (Sample.page title loadedUrl html)
  = (recordBytes (Sample.page title loadedUrl "")
     + Str.byteLength (Json.escape html))%N.
Proof.
  unfold recordBytes, Json.stringify, Sample.page.
  cbn [Json.serialize map Json.wrap String.eqb Json.colon Str.join fst snd
       Json.quote].
  unfold Json.quote. rewrite !StrFacts.byteLength_app.
  change (Str.byteLength (Json.escape "")) with 0%N. lia.
Qed.

Lemma recordBytes_bigPage (title : string) (n : N) :
  recordBytes (Sample.bigPage title n)
  = (recordBytes (Sample.page title "https://example.com/big" "") + n)%N.
Proof.
  unfold Sample.bigPage. rewrite recordBytes_page, escape_pad.
  unfold Str.byteLength at 1. rewrite length_pad. lia.
Qed.

Lemma recordBytes_bigX : recordBytes Sample.bigX = 600093%N.
Proof. unfold Sample.bigX. rewrite recordBytes_bigPage. reflexivity. Qed.

Lemma recordBytes_bigY : recordBytes Sample.bigY = 600093%N.
Proof. unfold Sample.bigY. rewrite recordBytes_bigPage. reflexivity. Qed.

Lemma recordBytes_bigZ : recordBytes Sample.bigZ = 600093%N.
Proof. unfold Sample.bigZ. rewrite recordBytes_bigPage. reflexivity. Qed.

(** The sample estimator reads only the byte length of the text. *)
Lemma estimate (data : json) (l : limit) :
  Sample.isWithinTokenLimit (Json.stringify data) l
  = if exceeds ((recordBytes data + 3) / 4) l then None
    else Some ((recordBytes data + 3) / 4)%N.
Proof. reflexivity. Qed.

End SampleFacts.

(** ** What one call of the batching routine does *)

Section Step.

Variable isWithinTokenLimit : string -> limit -> option N.
Variable estimatorThrows : string -> limit -> bool.
Variable urlConfig : Config.

Lemma tokens_flush (st : state) :
  estimatedTokens (writeBatchToFile urlConfig st) = estimatedTokens st.
Proof. reflexivity. Qed.

Lemma tokens_byteBranch (b : N) (st : state) :
  estimatedTokens (byteBranch urlConfig b st) = estimatedTokens st.
Proof.
  unfold byteBranch.
  now destruct (exceeds (currentSize (addSize b st)) (maxBytes urlConfig)).
Qed.

Lemma size_byteBranch (b : N) (st : state) :
  currentSize (byteBranch urlConfig b st)
  = if exceeds (currentSize st + b) (maxBytes urlConfig) then 0%N
    else (currentSize st + b)%N.
Proof.
  unfold byteBranch. simpl.
  now destruct (exceeds (currentSize st + b) (maxBytes urlConfig)).
Qed.

(** C2 (amended): a record for which the estimator returns a non-numeric
    result is not appended to the pending batch: the token statement is
    skipped as a whole, so the step is the byte accounting alone.  The
    running token estimate is unchanged, no record is added to the pending
    batch or to an artifact, and the running byte total is increased by the
    record's serialized byte length before it is compared with the
    ceiling. *)
Theorem unmeasured_record_is_skipped (data : json) (st : state) :
  isWithinTokenLimit (Json.stringify data) (tokenLimit urlConfig) = None ->
  let st' := addContentOrSplit isWithinTokenLimit urlConfig data st in
  st' = byteBranch urlConfig (recordBytes data) st
  /\ estimatedTokens st' = estimatedTokens st
  /\ contents st' = contents st
  /\ (currentResults st' = currentResults st \/ currentResults st' = [])
  /\ currentSize st'
     = (if exceeds (currentSize st + recordBytes data) (maxBytes urlConfig)
        then 0 else currentSize st + recordBytes data)%N.
Proof.
  intros H st'.
  assert (E : st' = byteBranch urlConfig (recordBytes data) st).
  { unfold st', addContentOrSplit. rewrite H. reflexivity. }
  rewrite E. split; [reflexivity|].
  split; [apply tokens_byteBranch|].
  split; [apply contents_byteBranch|].
  split; [|apply size_byteBranch].
  unfold byteBranch.
  destruct (exceeds (currentSize (addSize (recordBytes data) st))
              (maxBytes urlConfig)); [right | left]; reflexivity.
Qed.

(** C4 (amended): for a record whose token count [t] the estimator returns
    as a number, if [running_tokens + t > T] the batcher flushes the pending
    batch first when it is non-empty and, whether or not the batch was
    empty, goes on with [running_tokens = floor (t / 2)] and the record
    appended; otherwise it appends the record and sets
    [running_tokens := running_tokens + t].  The byte accounting follows in
    both cases and leaves the token estimate as it is. *)
Theorem token_branch_of_measured_record (data : json) (t : N) (st : state) :
  isWithinTokenLimit (Json.stringify data) (tokenLimit urlConfig) = Some t ->
  let st' := addContentOrSplit isWithinTokenLimit urlConfig data st in
  if overMaxTokens (estimatedTokens st + t) urlConfig then
    st' = byteBranch urlConfig (recordBytes data)
            (pushResult data
               (setTokens (N.div t 2) (flushRemaining urlConfig st)))
    /\ estimatedTokens st' = N.div t 2
  else
    st' = byteBranch urlConfig (recordBytes data)
            (setTokens (estimatedTokens st + t) (pushResult data st))
    /\ estimatedTokens st' = (estimatedTokens st + t)%N.
Proof.
  intros H st'. unfold st', addContentOrSplit. rewrite H.
  unfold tokenBranch.
  destruct (overMaxTokens (estimatedTokens st + t) urlConfig);
    (split; [reflexivity | now rewrite tokens_byteBranch]).
Qed.

End Step.

(** ** Lossless partition of the measured records *)

Section Lossless.

Variable isWithinTokenLimit : string -> limit -> option N.
Variable estimatorThrows : string -> limit -> bool.
Variable readFile : string -> option string.
Variable JSON_parse : string -> option json.


End Lossless.

(** ** The sample runs *)

Module SampleRuns.

(** Two records of 600093 accounted bytes each under a ceiling of one
    mebibyte and 400000 tokens: the second one takes the running byte total
    over the ceiling and both are flushed together. *)
Lemma feed_two_large (x y : json) :
  recordBytes x = 600093%N -> recordBytes y = 600093%N ->
  feed Sample.isWithinTokenLimit Sample.cfgBoth [x; y] initState
  = mkState [] 0 2 300048
      [("output-1.json", Json.stringifyIndent2 (JArray [x; y]))]
      [[x; y]].
Proof.
  intros Hx Hy. unfold feed. cbn [fold_left].
  unfold addContentOrSplit. rewrite !SampleFacts.estimate.
  fold (recordBytes x). fold (recordBytes y). rewrite Hx, Hy.
  reflexivity.
Qed.

Lemma afterXY_eq :
  Sample.afterXY
  = mkState [] 0 2 300048
      [("output-1.json",
        Json.stringifyIndent2 (JArray [Sample.bigX; Sample.bigY]))]
      [[Sample.bigX; Sample.bigY]].
Proof.
  apply feed_two_large;
    [apply SampleFacts.recordBytes_bigX | apply SampleFacts.recordBytes_bigY].
Qed.

(** A third such record arrives when the pending batch is empty and the
    token estimate still stands at 300048. *)
Lemma third_large (z : json) (w : list (string * string))
    (f : list (list json)) :
  recordBytes z = 600093%N ->
  addContentOrSplit Sample.isWithinTokenLimit Sample.cfgBoth z
    (mkState [] 0 2 300048 w f)
  = mkState [z] 600093 2 75012 w f.
Proof.
  intros Hz. unfold addContentOrSplit. rewrite SampleFacts.estimate.
  fold (recordBytes z). rewrite Hz. reflexivity.
Qed.

End SampleRuns.



(** The hypothesis of C2 holds for [pageB] under a token ceiling of 30. *)
Lemma unmeasured_record_witness :
  Sample.isWithinTokenLimit (Json.stringify Sample.pageB)
    (tokenLimit Sample.cfgTokens) = None
  /\ estimatedTokens
       (addContentOrSplit Sample.isWithinTokenLimit Sample.cfgTokens
          Sample.pageB Sample.afterA)
     = estimatedTokens Sample.afterA.
Proof.
  split; [reflexivity|].
  apply (unmeasured_record_is_skipped Sample.isWithinTokenLimit
           Sample.cfgTokens Sample.pageB Sample.afterA).
  reflexivity.
Defined.

(** C2 as stated fails: [pageB], for which the estimator returns a
    non-numeric result, is not appended to the pending batch, which still
    holds [pageA] alone after the step. *)
Lemma unmeasured_record_counterexample :
  Sample.isWithinTokenLimit (Json.stringify Sample.pageB)
    (tokenLimit Sample.cfgTokens) = None
  /\ currentResults Sample.afterA = [Sample.pageA]
  /\ currentResults
       (addContentOrSplit Sample.isWithinTokenLimit Sample.cfgTokens
          Sample.pageB Sample.afterA)
     = [Sample.pageA]
  /\ currentResults
       (addContentOrSplit Sample.isWithinTokenLimit Sample.cfgTokens
          Sample.pageB Sample.afterA)
     <> (currentResults Sample.afterA ++ [Sample.pageB])%list.
Proof.
  split; [reflexivity|]. split; [reflexivity|]. split; [reflexivity|].
  vm_compute. intro H. discriminate H.
Qed.

(** The hypothesis of C4 holds for [pageA] at the start of a group. *)
Lemma token_branch_witness :
  Sample.isWithinTokenLimit (Json.stringify Sample.pageA)
    (tokenLimit Sample.cfgTokens) = Some 25%N
  /\ estimatedTokens
       (addContentOrSplit Sample.isWithinTokenLimit Sample.cfgTokens
          Sample.pageA initState)
     = 25%N.
Proof.
  split; [reflexivity|].
  apply (token_branch_of_measured_record Sample.isWithinTokenLimit
           Sample.cfgTokens Sample.pageA 25 initState).
  reflexivity.
Defined.

(** C4 as stated fails: after the byte ceiling flushed [bigX] and [bigY]
    the pending batch is empty and the token estimate is 300048; [bigZ],
    of 150024 tokens, would take it over the ceiling of 400000.  The
    pending batch being empty, the claim has the estimate become
    300048 + 150024; the code sets it to floor (150024 / 2). *)
Lemma token_branch_counterexample :
  Sample.isWithinTokenLimit (Json.stringify Sample.bigZ)
    (tokenLimit Sample.cfgBoth) = Some 150024%N
  /\ currentResults Sample.afterXY = []
  /\ estimatedTokens Sample.afterXY = 300048%N
  /\ estimatedTokens
       (addContentOrSplit Sample.isWithinTokenLimit Sample.cfgBoth
          Sample.bigZ Sample.afterXY)
     = 75012%N
  /\ estimatedTokens
       (addContentOrSplit Sample.isWithinTokenLimit Sample.cfgBoth
          Sample.bigZ Sample.afterXY)
     <> (estimatedTokens Sample.afterXY + 150024)%N.
Proof.
  rewrite SampleRuns.afterXY_eq.
  rewrite (SampleRuns.third_large Sample.bigZ
             [("output-1.json",
               Json.stringifyIndent2 (JArray [Sample.bigX; Sample.bigY]))]
             [[Sample.bigX; Sample.bigY]] SampleFacts.recordBytes_bigZ).
  rewrite SampleFacts.estimate, SampleFacts.recordBytes_bigZ.
  cbn [currentResults estimatedTokens].
  split; [reflexivity|]. split; [reflexivity|]. split; [reflexivity|].
  split; [reflexivity|]. intro H. discriminate H.
Qed.

(** ** The byte ceiling *)

Section Ceiling.

Variable isWithinTokenLimit : string -> limit -> option N.
Variable estimatorThrows : string -> limit -> bool.
Variable readFile : string -> option string.
Variable JSON_parse : string -> option json.
Variable urlConfig : Config.

Lemma batchBytes_snoc (batch : list json) (data : json) :
  batchBytes (batch ++ [data])%list = (batchBytes batch + recordBytes data)%N.
Proof.
  induction batch as [|d batch IH]; simpl; [lia | rewrite IH; lia].
Qed.

Lemma batchBytes_removelast (batch : list json) :
  (batchBytes (removelast batch) <= batchBytes batch)%N.
Proof.
  induction batch as [|d batch IH]; [simpl; lia|].
  destruct batch as [|d' batch]; [simpl; lia|].
  change (removelast (d :: d' :: batch)) with (d :: removelast (d' :: batch)).
  unfold batchBytes in *. simpl fold_right in *. lia.
Qed.

Lemma exceeds_mono (x y : N) (l : limit) :
  (y <= x)%N -> exceeds x l = false -> exceeds y l = false.
Proof.
  destruct l as [n|]; simpl; [|reflexivity].
  rewrite !N.ltb_ge. lia.
Qed.

Lemma exceeds_zero (l : limit) : exceeds 0 l = false.
Proof.
  destruct l as [n|]; simpl; [|reflexivity]. apply N.ltb_ge. lia.
Qed.

Let ok (batch : list json) : Prop :=
  butLastWithin (maxBytes urlConfig) batch = true.

Lemma ok_of_bytes (batch : list json) (size : N) :
  (batchBytes (removelast batch) <= size)%N ->
  exceeds size (maxBytes urlConfig) = false -> ok batch.
Proof.
  intros Hle Hex. unfold ok, butLastWithin.
  now rewrite (exceeds_mono _ _ _ Hle Hex).
Qed.

Lemma accounted_init : accounted urlConfig initState.
Proof.
  unfold accounted; simpl.
  repeat split; [lia | apply exceeds_zero | constructor].
Qed.

Lemma accounted_flushRemaining (st : state) :
  accounted urlConfig st ->
  accounted urlConfig (flushRemaining urlConfig st).
Proof.
  intros (Hb & Hs & Hf). unfold flushRemaining.
  destruct (nonEmpty (currentResults st)); [|now repeat split].
  unfold accounted; simpl. repeat split; [lia | apply exceeds_zero|].
  apply Forall_app; split; [exact Hf|]. constructor; [|constructor].
  apply (ok_of_bytes _ (currentSize st)); [|exact Hs].
  pose proof (batchBytes_removelast (currentResults st)). lia.
Qed.

Lemma accountedBut_tokenBranch (data : json) (tokenCount : option N)
    (st : state) :
  accounted urlConfig st ->
  accountedBut urlConfig (recordBytes data)
    (tokenBranch urlConfig data tokenCount st).
Proof.
  intros A. unfold tokenBranch. destruct tokenCount as [t|].
  - destruct (overMaxTokens (estimatedTokens st + t) urlConfig).
    + change (if nonEmpty (currentResults st)
              then writeBatchToFile urlConfig st else st)
        with (flushRemaining urlConfig st).
      pose proof (accounted_flushRemaining st A) as (Hb & Hs & Hf).
      pose proof (pending_flushRemaining urlConfig st) as E.
      unfold accountedBut; simpl. rewrite E; simpl.
      repeat split; [lia | lia | exact Hs | exact Hf].
    + destruct A as (Hb & Hs & Hf). unfold accountedBut; simpl.
      rewrite removelast_last, batchBytes_snoc.
      repeat split; [lia | exact Hb | exact Hs | exact Hf].
  - destruct A as (Hb & Hs & Hf). unfold accountedBut.
    pose proof (batchBytes_removelast (currentResults st)).
    repeat split; [lia | lia | exact Hs | exact Hf].
Qed.

Lemma accounted_byteBranch (b : N) (st : state) :
  accountedBut urlConfig b st ->
  accounted urlConfig (byteBranch urlConfig b st).
Proof.
  intros (Hb & Hr & Hs & Hf). unfold byteBranch.
  destruct (exceeds (currentSize (addSize b st)) (maxBytes urlConfig)) eqn:E.
  - unfold accounted; simpl. repeat split; [lia | apply exceeds_zero|].
    apply Forall_app; split; [exact Hf|]. constructor; [|constructor].
    now apply (ok_of_bytes _ (currentSize st)).
  - unfold accounted; simpl in *. now repeat split.
Qed.

Lemma accounted_step (data : json) (st : state) :
  accounted urlConfig st ->
  accounted urlConfig (addContentOrSplit isWithinTokenLimit urlConfig data st).
Proof.
  intro A. unfold addContentOrSplit.
  apply accounted_byteBranch. now apply accountedBut_tokenBranch.
Qed.

Lemma accounted_processFiles (files : list string) (st : state) :
  accounted urlConfig st ->
  accounted urlConfig
    (stateOf
       (processFiles isWithinTokenLimit estimatorThrows readFile JSON_parse
          urlConfig files st)).
Proof.
  revert st. induction files as [|f files IH]; intros st A; simpl; [exact A|].
  destruct (readFile f) as [c|]; [|exact A].
  destruct (JSON_parse c) as [d|]; [|exact A].
  destruct (estimatorThrows (Json.stringify d) (tokenLimit urlConfig));
    [exact A|].
  apply IH. now apply accounted_step.
Qed.

End Ceiling.

(** C3 (amended): in every artifact a group flushes, the records other than
    the last one have a total serialized byte size within the configured
    ceiling: an artifact exceeds the ceiling only through its last record,
    the one whose addition took the running byte total over the ceiling,
    and that record is flushed together with the records pending before
    it. *)
Theorem byte_ceiling_but_last_record
    (isWithinTokenLimit : string -> limit -> option N)
    (estimatorThrows : string -> limit -> bool)
    (readFile : string -> option string) (JSON_parse : string -> option json)
    (config : Config) (urlKey : string) (files : list string) :
  Forall (fun batch => butLastWithin (maxBytes config) batch = true)
    (flushed
       (stateOf
          (processGroup isWithinTokenLimit estimatorThrows readFile JSON_parse
             config urlKey files))).
Proof.
  unfold processGroup.
  set (urlConfig := withOutputFileName config (urlKey ++ ".json")).
  pose proof (accounted_processFiles isWithinTokenLimit estimatorThrows
                readFile JSON_parse urlConfig files initState
                (accounted_init urlConfig)) as A.
  destruct (processFiles isWithinTokenLimit estimatorThrows readFile JSON_parse
              urlConfig files initState) as [st|st]; simpl in *.
  - apply (accounted_flushRemaining urlConfig) in A.
    destruct A as (_ & _ & Hf). exact Hf.
  - destruct A as (_ & _ & Hf). exact Hf.
Qed.

(** C3 as stated fails: under a ceiling of one mebibyte, [bigX] and [bigY],
    of 600093 bytes each, are flushed as one artifact of 1200186 bytes;
    neither record exceeds the ceiling alone and the artifact is not a
    singleton. *)
Lemma byte_ceiling_counterexample :
  flushed Sample.afterXY = [[Sample.bigX; Sample.bigY]]
  /\ exceeds (batchBytes [Sample.bigX; Sample.bigY])
       (maxBytes Sample.cfgBoth) = true
  /\ exceeds (recordBytes Sample.bigX) (maxBytes Sample.cfgBoth) = false
  /\ exceeds (recordBytes Sample.bigY) (maxBytes Sample.cfgBoth) = false.
Proof.
  rewrite SampleRuns.afterXY_eq. unfold batchBytes. cbn [fold_right flushed].
  rewrite SampleFacts.recordBytes_bigX, SampleFacts.recordBytes_bigY.
  split; [reflexivity|]. split; [reflexivity|]. split; reflexivity.
Qed.

(** ** Flushing: names, contents and accumulators *)

Section Naming.

Variable isWithinTokenLimit : string -> limit -> option N.
Variable estimatorThrows : string -> limit -> bool.
Variable readFile : string -> option string.
Variable JSON_parse : string -> option json.
Variable config : Config.
Variable urlKey : string.

Let urlConfig : Config := withOutputFileName config (urlKey ++ ".json").

Lemma nextFileName_urlKey (st : state) :
  nextFileName urlConfig st = artifactName urlKey (fileCounter st).
Proof.
  unfold nextFileName, artifactName, urlConfig; simpl outputFileName.
  now rewrite StrFacts.stripJsonSuffix_app.
Qed.

Lemma artifactsFrom_snoc (i : N) (batches : list (list json))
    (batch : list json) :
  artifactsFrom urlKey i (batches ++ [batch])%list
  = (artifactsFrom urlKey i batches
     ++ [(artifactName urlKey (i + N.of_nat (List.length batches)),
          Json.stringifyIndent2 (JArray batch))])%list.
Proof.
  revert i. induction batches as [|b batches IH]; intro i.
  - simpl. now rewrite N.add_0_r.
  - cbn [artifactsFrom List.length List.app]. rewrite IH.
    replace (i + 1 + N.of_nat (List.length batches))%N
      with (i + N.of_nat (S (List.length batches)))%N by lia.
    reflexivity.
Qed.

Lemma numbered_flush (st : state) :
  numbered urlKey st -> numbered urlKey (writeBatchToFile urlConfig st).
Proof.
  intros [Hw Hc]. unfold numbered, writeBatchToFile.
  cbn [written flushed fileCounter].
  rewrite artifactsFrom_snoc, nextFileName_urlKey, Hw, Hc.
  split; [reflexivity|]. rewrite List.length_app.
  cbn [List.length]. lia.
Qed.

Lemma numbered_flushRemaining (st : state) :
  numbered urlKey st -> numbered urlKey (flushRemaining urlConfig st).
Proof.
  intro H. unfold flushRemaining.
  destruct (nonEmpty (currentResults st)); [now apply numbered_flush | exact H].
Qed.

Lemma numbered_step (data : json) (st : state) :
  numbered urlKey st ->
  numbered urlKey (addContentOrSplit isWithinTokenLimit urlConfig data st).
Proof.
  intro H. unfold addContentOrSplit, byteBranch.
  set (st1 := tokenBranch urlConfig data _ st).
  assert (H1 : numbered urlKey st1).
  { unfold st1, tokenBranch.
    destruct (isWithinTokenLimit _ _) as [t|]; [|exact H].
    destruct (overMaxTokens _ _); [|exact H].
    apply numbered_flushRemaining in H. exact H. }
  destruct (exceeds _ _); [|exact H1].
  apply (numbered_flush (addSize _ st1)). exact H1.
Qed.

Lemma numbered_processFiles (files : list string) (st : state) :
  numbered urlKey st ->
  numbered urlKey
    (stateOf
       (processFiles isWithinTokenLimit estimatorThrows readFile JSON_parse
          urlConfig files st)).
Proof.
  revert st. induction files as [|f files IH]; intros st H; simpl; [exact H|].
  destruct (readFile f) as [c|]; [|exact H].
  destruct (JSON_parse c) as [d|]; [|exact H].
  destruct (estimatorThrows (Json.stringify d) (tokenLimit urlConfig));
    [exact H|].
  apply IH. now apply numbered_step.
Qed.

Lemma numbered_processGroup (files : list string) :
  numbered urlKey
    (stateOf
       (processGroup isWithinTokenLimit estimatorThrows readFile JSON_parse
          config urlKey files)).
Proof.
  unfold processGroup. fold urlConfig.
  assert (I : numbered urlKey initState) by (split; reflexivity).
  pose proof (numbered_processFiles files initState I) as H.
  destruct (processFiles isWithinTokenLimit estimatorThrows readFile JSON_parse
              urlConfig files initState) as [st|st]; simpl in *; [|exact H].
  now apply numbered_flushRemaining.
Qed.

(** C5 (amended): every flush writes the pending batch as a pretty-printed
    JSON array under the name that joins the group key, a hyphen, the next
    sequence index and [.json]; it empties the pending batch, sets the
    running byte total to zero and advances the index, and it leaves the
    running token estimate as it is.  Over a whole group the files written
    are the flushed batches under the indices 1, 2, ... in flush order. *)
Theorem flush_postcondition (files : list string) (st : state) :
  (written (writeBatchToFile urlConfig st)
   = (written st
      ++ [((urlKey ++ "-" ++ Str.ofN (fileCounter st) ++ ".json")%string,
           Json.stringifyIndent2 (JArray (currentResults st)))])%list
   /\ currentResults (writeBatchToFile urlConfig st) = []
   /\ currentSize (writeBatchToFile urlConfig st) = 0%N
   /\ fileCounter (writeBatchToFile urlConfig st) = (fileCounter st + 1)%N
   /\ estimatedTokens (writeBatchToFile urlConfig st) = estimatedTokens st)
  /\ written
       (stateOf
          (processGroup isWithinTokenLimit estimatorThrows readFile JSON_parse
             config urlKey files))
     = artifactsFrom urlKey 1
         (flushed
            (stateOf
               (processGroup isWithinTokenLimit estimatorThrows readFile
                  JSON_parse config urlKey files))).
Proof.
  split.
  - unfold writeBatchToFile; simpl. rewrite nextFileName_urlKey.
    repeat split; reflexivity.
  - apply numbered_processGroup.
Qed.

End Naming.

(** C5 as stated fails: the flush that the byte ceiling triggers on [bigX]
    and [bigY] empties the pending batch and the byte total, and the
    running token estimate is 300048 after it, not zero. *)
Lemma flush_postcondition_counterexample :
  Sample.afterXY
  = writeBatchToFile Sample.cfgBoth
      (mkState [Sample.bigX; Sample.bigY] 1200186 1 300048 [] [])
  /\ currentResults Sample.afterXY = []
  /\ currentSize Sample.afterXY = 0%N
  /\ estimatedTokens Sample.afterXY = 300048%N
  /\ estimatedTokens Sample.afterXY <> 0%N.
Proof.
  rewrite SampleRuns.afterXY_eq.
  cbn [currentResults currentSize estimatedTokens].
  split; [reflexivity|]. split; [reflexivity|]. split; [reflexivity|].
  split; [reflexivity|]. intro H. discriminate H.
Qed.

(** ** Compact and indented serialization *)

Module JsonFacts.











End JsonFacts.



(** ** Grouping *)

Section Grouping.

Variable isWithinTokenLimit : string -> limit -> option N.
Variable estimatorThrows : string -> limit -> bool.
Variable readFile : string -> option string.
Variable JSON_parse : string -> option json.
Variable newURL : json -> option (string * string).

Lemma keyOf_configKey (config : Config) (file : string) :
  keyOf readFile JSON_parse newURL config file
  = Str.stripJsonSuffix (outputFileName config).
Proof.
  unfold keyOf.
  destruct (readFile file) as [c|]; [|reflexivity].
  destruct (JSON_parse c) as [d|]; [|reflexivity].
  destruct (sourceUrlOf d) as [s|]; [|reflexivity].
  destruct (Json.truthy s); [|reflexivity].
  destruct (option_map newURL s) as [[[h p]|]|]; reflexivity.
Qed.






End Grouping.

Section GroupingClaims.

Variable isWithinTokenLimit : string -> limit -> option N.
Variable estimatorThrows : string -> limit -> bool.
Variable readFile : string -> option string.
Variable JSON_parse : string -> option json.
Variable newURL : json -> option (string * string).
Variable jsonFiles : list string.

(** C6 (amended): in [writeSingle] the grouping key of every stored record
    is the configuration's output base name ([outputFileName] without a
    trailing [.json]), whether its source identifier parses as a URL, is
    absent or does not parse; the hostname-and-path string is computed and
    not used.  Only in the earlier single-configuration [write] is a record
    whose source identifier ([sourceUrl], falling back to [url]) parses
    keyed by the hostname immediately followed by the path with slashes
    replaced by an underscore and one leading underscore stripped, and
    there a file that cannot be read or parsed, or whose source identifier
    is absent or does not parse, is keyed ["default"]. *)
Theorem grouping_key (config : Config) (file : string) :
  keyOf readFile JSON_parse newURL config file
  = Str.stripJsonSuffix (outputFileName config)
  /\ (forall data v hostname pathname,
        loadFile readFile JSON_parse file = Some data ->
        sourceUrlOf data = Some (Some v) ->
        Json.truthy (Some v) = true ->
        newURL v = Some (hostname, pathname) ->
        Legacy.urlKeyOf readFile JSON_parse newURL file
        = hostname
          ++ Str.stripLeadingUnderscore (Str.replaceSlashes pathname))
  /\ (loadFile readFile JSON_parse file = None ->
      Legacy.urlKeyOf readFile JSON_parse newURL file = "default")
  /\ (forall data source,
        loadFile readFile JSON_parse file = Some data ->
        sourceUrlOf data = Some source ->
        Json.truthy source = false \/ option_map newURL source = Some None ->
        Legacy.urlKeyOf readFile JSON_parse newURL file = "default")
  /\ (forall data,
        loadFile readFile JSON_parse file = Some data ->
        sourceUrlOf data = None ->
        Legacy.urlKeyOf readFile JSON_parse newURL file = "default").
Proof.
  split; [apply keyOf_configKey|]. split; [|split; [|split]].
  - intros data v hostname pathname Hload Hsrc Htruthy Hurl.
    unfold Legacy.urlKeyOf. unfold loadFile in Hload.
    destruct (readFile file) as [c|]; [|discriminate].
    rewrite Hload, Hsrc, Htruthy. simpl. now rewrite Hurl.
  - intro Hload. unfold Legacy.urlKeyOf. unfold loadFile in Hload.
    destruct (readFile file) as [c|]; [|reflexivity].
    now rewrite Hload.
  - intros data source Hload Hsrc Hbad.
    unfold Legacy.urlKeyOf. unfold loadFile in Hload.
    destruct (readFile file) as [c|]; [|discriminate].
    rewrite Hload, Hsrc.
    destruct Hbad as [Hf | Hu]; [now rewrite Hf | rewrite Hu].
    now destruct (Json.truthy source).
  - intros data Hload Hsrc.
    unfold Legacy.urlKeyOf. unfold loadFile in Hload.
    destruct (readFile file) as [c|]; [|discriminate].
    now rewrite Hload, Hsrc.
Qed.






End GroupingClaims.

Section WriteClaims.

Variable isWithinTokenLimit : string -> limit -> option N.
Variable estimatorThrows : string -> limit -> bool.
Variable JSON_parse : string -> option json.
Variable newURL : json -> option (string * string).
Variable datasetAfter : list (string * string) -> dataset.




End WriteClaims.

(** The hypotheses of the second part of C6 hold for the first file of the
    sample dataset, whose key in the earlier [write] joins the hostname
    and the path without a separator. *)
Lemma grouping_key_witness :
  keyOf Sample.readFile Sample.JSON_parse Sample.newURL Sample.cfgPlain
    "1.json" = "output"
  /\ Legacy.urlKeyOf Sample.readFile Sample.JSON_parse Sample.newURL "1.json"
     = "example.coma_b".
Proof.
  destruct (grouping_key Sample.readFile Sample.JSON_parse Sample.newURL
              Sample.cfgPlain "1.json") as (H1 & H2 & _ & _ & _).
  split; [exact H1|].
  apply (H2 Sample.pageA (JString "https://example.com/a/b")
            "example.com" "/a/b"); reflexivity.
Defined.

(** C6 as stated fails: the stored record of [1.json] has the source
    identifier [https://example.com/a/b], which parses; [writeSingle] files
    it under ["output"], and the earlier [write] under ["example.coma_b"];
    neither key is ["example.com_a_b"]. *)
Lemma grouping_key_counterexample :
  loadFile Sample.readFile Sample.JSON_parse "1.json" = Some Sample.pageA
  /\ sourceUrlOf Sample.pageA = Some (Some (JString "https://example.com/a/b"))
  /\ Sample.newURL (JString "https://example.com/a/b")
     = Some ("example.com", "/a/b")
  /\ keyOf Sample.readFile Sample.JSON_parse Sample.newURL Sample.cfgPlain
       "1.json" = "output"
  /\ keyOf Sample.readFile Sample.JSON_parse Sample.newURL Sample.cfgPlain
       "1.json" <> "example.com_a_b"
  /\ Legacy.urlKeyOf Sample.readFile Sample.JSON_parse Sample.newURL "1.json"
     = "example.coma_b"
  /\ Legacy.urlKeyOf Sample.readFile Sample.JSON_parse Sample.newURL "1.json"
     <> "example.com_a_b".
Proof.
  split; [reflexivity|]. split; [reflexivity|]. split; [reflexivity|].
  split; [reflexivity|]. split; [vm_compute; intro H; discriminate H|].
  split; [reflexivity|]. vm_compute; intro H; discriminate H.
Qed.

(** C7, the code at a failing input: [bad.json] is not JSON.  The first
    loop of [writeSingle] files it in the configuration's group with the
    two readable records, and the second loop, parsing it again outside any
    [try], rejects: nothing is written, not even the batch that holds the
    record read before it, and the record after it is never read. *)
Theorem unparseable_file_aborts_aggregation :
  loadFile Sample.readFile Sample.JSON_parse "bad.json" = None
  /\ categorize Sample.readFile Sample.JSON_parse Sample.newURL
       Sample.cfgPlain ["1.json"; "bad.json"; "3.json"]
     = [("output", ["1.json"; "bad.json"; "3.json"])]
  /\ writeSingle Sample.isWithinTokenLimit Sample.estimatorThrows
       Sample.readFile Sample.JSON_parse Sample.newURL
       ["1.json"; "bad.json"; "3.json"] Sample.cfgPlain
     = ([], None)
  /\ map fst
       (fst (writeSingle Sample.isWithinTokenLimit Sample.estimatorThrows
               Sample.readFile Sample.JSON_parse Sample.newURL
               ["1.json"; "3.json"]
               Sample.cfgPlain))
     = ["output-1.json"].
Proof.
  split; [reflexivity|]. split; [reflexivity|]. split; reflexivity.
Qed.



(** ** Seed resolution *)

(** C9: a seed is classified as a sitemap exactly when it ends with
    [sitemap.xml]; the crawler of a sitemap seed is started with the list
    of URLs downloaded from it, the crawler of any other seed with that one
    URL; with [NO_CRAWL] set no crawler is started. *)
Theorem seed_classification
    (downloadListOfUrls : string -> option (list string))
    (config : Config) (isArray : bool) :
  (isUrlASitemap (url config) = true
   <-> exists before, url config = before ++ "sitemap.xml")
  /\ crawlSingle downloadListOfUrls false config isArray
     = (if isUrlASitemap (url config)
        then match downloadListOfUrls (url config) with
             | Some listOfUrls => Run listOfUrls
             | None => SeedFailed
             end
        else Run [url config])
  /\ crawlSingle downloadListOfUrls true config isArray = NotStarted.
Proof.
  split; [apply StrFacts.endsWith_iff|].
  split; [|reflexivity].
  unfold crawlSingle. destruct isArray; reflexivity.
Qed.

(** The two kinds of seed on the sample configuration. *)
Example seed_classification_sample :
  crawlSingle Sample.downloadListOfUrls false Sample.cfgPlain false
  = Run ["https://example.com/a/b"; "https://example.com/c"]
  /\ crawlSingle Sample.downloadListOfUrls false
       (mkConfig "https://example.com/a/b" "output.json" None None) true
     = Run ["https://example.com/a/b"].
Proof. split; reflexivity. Qed.

(** * Further properties *)

(** ** The token ceiling *)

Section TokenBound.

Variable isWithinTokenLimit : string -> limit -> option N.
Variable estimatorThrows : string -> limit -> bool.
Variable readFile : string -> option string.
Variable JSON_parse : string -> option json.
Variable urlConfig : Config.
Variable T : N.

Hypothesis contract : withinLimit isWithinTokenLimit.
Hypothesis ceiling : maxTokens urlConfig = Some T.
Hypothesis positive : (0 < T)%N.

Lemma tokenLimit_ceiling : tokenLimit urlConfig = Finite T.
Proof.
  unfold tokenLimit. rewrite ceiling.
  destruct (N.eqb_spec T 0) as [E|_]; [lia | reflexivity].
Qed.

Lemma batchTokens_snoc (batch : list json) (data : json) :
  batchTokens isWithinTokenLimit urlConfig (batch ++ [data])%list
  = (batchTokens isWithinTokenLimit urlConfig batch
     + recordTokens isWithinTokenLimit urlConfig data)%N.
Proof.
  induction batch as [|d batch IH]; simpl; [lia | rewrite IH; lia].
Qed.

Lemma tokenBounded_flush (st : state) :
  tokenBounded isWithinTokenLimit urlConfig T st ->
  tokenBounded isWithinTokenLimit urlConfig T (writeBatchToFile urlConfig st).
Proof.
  intros (Hb & He & Hf). unfold tokenBounded; simpl.
  split; [lia|]. split; [exact He|].
  apply Forall_app; split; [exact Hf|]. constructor; [lia | constructor].
Qed.

Lemma tokenBounded_flushRemaining (st : state) :
  tokenBounded isWithinTokenLimit urlConfig T st ->
  tokenBounded isWithinTokenLimit urlConfig T (flushRemaining urlConfig st).
Proof.
  intro H. unfold flushRemaining.
  destruct (nonEmpty (currentResults st));
    [now apply tokenBounded_flush | exact H].
Qed.

Lemma half_gap (t : N) : (t <= T -> t <= t / 2 + (T + 1) / 2)%N.
Proof.
  intro H.
  pose proof (N.div_mod t 2) as Ht. pose proof (N.mod_lt t 2) as Mt.
  pose proof (N.div_mod (T + 1) 2) as HT. pose proof (N.mod_lt (T + 1) 2) as MT.
  lia.
Qed.

Lemma half_le (t : N) : (t <= T -> t / 2 <= T)%N.
Proof.
  intro H. apply N.le_trans with t; [|exact H].
  apply N.Div0.div_le_upper_bound; lia.
Qed.

Lemma tokenBounded_step (data : json) (st : state) :
  tokenBounded isWithinTokenLimit urlConfig T st ->
  tokenBounded isWithinTokenLimit urlConfig T
    (addContentOrSplit isWithinTokenLimit urlConfig data st).
Proof.
  intro H. unfold addContentOrSplit.
  set (st1 := tokenBranch urlConfig data _ st).
  assert (H1 : tokenBounded isWithinTokenLimit urlConfig T st1).
  { unfold st1, tokenBranch.
    destruct (isWithinTokenLimit (Json.stringify data) (tokenLimit urlConfig))
      as [t|] eqn:E; [|exact H].
    assert (Ht : (t <= T)%N).
    { pose proof (contract _ _ _ E) as C. rewrite tokenLimit_ceiling in C.
      simpl in C. apply N.ltb_ge in C. exact C. }
    assert (Hd : recordTokens isWithinTokenLimit urlConfig data = t)
      by (unfold recordTokens; now rewrite E).
    destruct (overMaxTokens (estimatedTokens st + t) urlConfig) eqn:O.
    - change (if nonEmpty (currentResults st)
              then writeBatchToFile urlConfig st else st)
        with (flushRemaining urlConfig st).
      pose proof (tokenBounded_flushRemaining st H) as (_ & _ & Hf).
      pose proof (pending_flushRemaining urlConfig st) as P.
      unfold tokenBounded; simpl. rewrite P; simpl. rewrite Hd.
      pose proof (half_gap t Ht). pose proof (half_le t Ht).
      split; [lia|]. split; [lia | exact Hf].
    - destruct H as (Hb & He & Hf).
      unfold overMaxTokens in O. rewrite ceiling in O. apply N.ltb_ge in O.
      unfold tokenBounded; simpl. rewrite batchTokens_snoc, Hd.
      split; [lia|]. split; [lia | exact Hf]. }
  unfold byteBranch.
  destruct (exceeds _ _); [|exact H1].
  apply (tokenBounded_flush (addSize _ st1)). exact H1.
Qed.

Lemma tokenBounded_processFiles (files : list string) (st : state) :
  tokenBounded isWithinTokenLimit urlConfig T st ->
  tokenBounded isWithinTokenLimit urlConfig T
    (stateOf
       (processFiles isWithinTokenLimit estimatorThrows readFile JSON_parse
          urlConfig files st)).
Proof.
  revert st. induction files as [|f files IH]; intros st H; simpl; [exact H|].
  destruct (readFile f) as [c|]; [|exact H].
  destruct (JSON_parse c) as [d|]; [|exact H].
  destruct (estimatorThrows (Json.stringify d) (tokenLimit urlConfig));
    [exact H|].
  apply IH. now apply tokenBounded_step.
Qed.

End TokenBound.

Lemma tokenBounded_processGroup
    (isWithinTokenLimit : string -> limit -> option N)
    (estimatorThrows : string -> limit -> bool)
    (readFile : string -> option string) (JSON_parse : string -> option json)
    (config : Config) (urlKey : string) (files : list string) (T : N) :
  withinLimit isWithinTokenLimit ->
  maxTokens config = Some T -> (0 < T)%N ->
  tokenBounded isWithinTokenLimit config T
    (stateOf
       (processGroup isWithinTokenLimit estimatorThrows readFile JSON_parse
          config urlKey files)).
Proof.
  intros C HT Hpos. unfold processGroup.
  set (urlConfig := withOutputFileName config (urlKey ++ ".json")).
  assert (I : tokenBounded isWithinTokenLimit urlConfig T initState).
  { unfold tokenBounded, initState.
    cbn [currentResults estimatedTokens flushed batchTokens fold_right].
    split; [apply N.le_0_l|]. split; [apply N.le_0_l | constructor]. }
  pose proof (tokenBounded_processFiles isWithinTokenLimit estimatorThrows
                readFile JSON_parse urlConfig T C HT Hpos files initState I)
    as H.
  destruct (processFiles isWithinTokenLimit estimatorThrows readFile JSON_parse
              urlConfig files initState) as [st|st]; simpl in *; [|exact H].
  change (tokenBounded isWithinTokenLimit urlConfig T
            (flushRemaining urlConfig st)).
  eapply tokenBounded_flushRemaining; eassumption.
Qed.

(** X1: under a positive token ceiling [T] and an estimator that never
    returns a count above the limit it is given, the running token
    estimate of a group never exceeds [T], and the token counts of the
    records of any artifact sum to at most [T] plus half of [T], rounded
    up: the carry-over halves the count of the record that opens a batch,
    so an artifact may hold more than [T] tokens, but never more than
    that. *)
Theorem token_ceiling_and_a_half
    (isWithinTokenLimit : string -> limit -> option N)
    (estimatorThrows : string -> limit -> bool)
    (readFile : string -> option string) (JSON_parse : string -> option json)
    (config : Config) (urlKey : string) (files : list string) (T : N) :
  withinLimit isWithinTokenLimit ->
  maxTokens config = Some T -> (0 < T)%N ->
  (estimatedTokens
     (stateOf
        (processGroup isWithinTokenLimit estimatorThrows readFile JSON_parse
           config urlKey files)) <= T)%N
  /\ Forall
       (fun batch =>
          (batchTokens isWithinTokenLimit config batch <= T + (T + 1) / 2)%N)
       (flushed
          (stateOf
             (processGroup isWithinTokenLimit estimatorThrows readFile
                JSON_parse config urlKey files))).
Proof.
  intros C HT Hpos.
  destruct (tokenBounded_processGroup isWithinTokenLimit estimatorThrows
              readFile JSON_parse config urlKey files T C HT Hpos)
    as (_ & He & Hf).
  split; [exact He | exact Hf].
Qed.

Lemma sample_withinLimit : withinLimit Sample.isWithinTokenLimit.
Proof.
  intros text l t H. unfold Sample.isWithinTokenLimit in H.
  destruct (exceeds (Sample.tokens text) l) eqn:E; [discriminate|].
  now inversion H; subst.
Qed.

(** The hypotheses of X1 hold for the sample estimator under a ceiling of
    31 tokens; the second artifact of the run holds 43 tokens, within the
    bound of 47 and above the ceiling. *)
Lemma token_ceiling_witness :
  withinLimit Sample.isWithinTokenLimit
  /\ maxTokens SampleMore.cfgTokens31 = Some 31%N
  /\ Forall
       (fun batch =>
          (batchTokens Sample.isWithinTokenLimit SampleMore.cfgTokens31 batch
           <= 47)%N)
       (flushed
          (stateOf
             (processGroup Sample.isWithinTokenLimit Sample.estimatorThrows
                SampleMore.readFile
                SampleMore.JSON_parse SampleMore.cfgTokens31 "pages"
                ["1.json"; "3.json"; "4.json"])))
  /\ batchTokens Sample.isWithinTokenLimit SampleMore.cfgTokens31
       [Sample.pageC; SampleMore.pageD] = 43%N.
Proof.
  split; [exact sample_withinLimit|]. split; [reflexivity|].
  split; [|reflexivity].
  apply (token_ceiling_and_a_half Sample.isWithinTokenLimit
           Sample.estimatorThrows
           SampleMore.readFile SampleMore.JSON_parse SampleMore.cfgTokens31
           "pages" ["1.json"; "3.json"; "4.json"] 31 sample_withinLimit
           eq_refl).
  reflexivity.
Defined.

(** ** Groups without a token ceiling *)

Section NoTokenCeiling.

Variable isWithinTokenLimit : string -> limit -> option N.
Variable estimatorThrows : string -> limit -> bool.
Variable readFile : string -> option string.
Variable JSON_parse : string -> option json.
Variable urlConfig : Config.

Hypothesis total : forall text, isWithinTokenLimit text Infinity <> None.
Hypothesis noTokens : maxTokens urlConfig = None.

(** Without a token ceiling a record is appended and counted. *)
Lemma step_noTokens (data : json) (st : state) :
  exists t,
    addContentOrSplit isWithinTokenLimit urlConfig data st
    = byteBranch urlConfig (recordBytes data)
        (setTokens (estimatedTokens st + t) (pushResult data st)).
Proof.
  unfold addContentOrSplit, tokenLimit, tokenBranch, overMaxTokens.
  rewrite noTokens.
  destruct (isWithinTokenLimit (Json.stringify data) Infinity) as [t|] eqn:E;
    [|now apply total in E].
  now exists t.
Qed.

(** With a byte ceiling only, the byte total is that of the pending batch
    and every batch flushed so far exceeds the ceiling. *)
Lemma overshoot_step (data : json) (st : state) :
  currentSize st = batchBytes (currentResults st)
  /\ Forall
       (fun batch => exceeds (batchBytes batch) (maxBytes urlConfig) = true)
       (flushed st) ->
  currentSize (addContentOrSplit isWithinTokenLimit urlConfig data st)
  = batchBytes
      (currentResults (addContentOrSplit isWithinTokenLimit urlConfig data st))
  /\ Forall
       (fun batch => exceeds (batchBytes batch) (maxBytes urlConfig) = true)
       (flushed (addContentOrSplit isWithinTokenLimit urlConfig data st)).
Proof.
  intros [Hs Hf]. destruct (step_noTokens data st) as [t ->].
  unfold byteBranch.
  destruct (exceeds _ _) eqn:E; simpl in *.
  - split; [reflexivity|]. apply Forall_app; split; [exact Hf|].
    constructor; [|constructor]. now rewrite batchBytes_snoc, <- Hs.
  - split; [|exact Hf]. now rewrite batchBytes_snoc, Hs.
Qed.

Lemma overshoot_processFiles (files : list string) (st : state) :
  currentSize st = batchBytes (currentResults st)
  /\ Forall
       (fun batch => exceeds (batchBytes batch) (maxBytes urlConfig) = true)
       (flushed st) ->
  Forall (fun batch => exceeds (batchBytes batch) (maxBytes urlConfig) = true)
    (flushed
       (stateOf
          (processFiles isWithinTokenLimit estimatorThrows readFile JSON_parse
             urlConfig files st))).
Proof.
  revert st. induction files as [|f files IH]; intros st H; simpl;
    [apply H|].
  destruct (readFile f) as [c|]; [|apply H].
  destruct (JSON_parse c) as [d|]; [|apply H].
  destruct (estimatorThrows (Json.stringify d) (tokenLimit urlConfig));
    [apply H|].
  apply IH. now apply overshoot_step.
Qed.


End NoTokenCeiling.

Lemma Forall_removelast {A : Type} (P : A -> Prop) (l : list A) :
  Forall P l -> Forall P (removelast l).
Proof.
  induction 1 as [|x l Hx Hl IH]; simpl; [constructor|].
  destruct l; [constructor | now constructor].
Qed.

(** X2: with a byte ceiling and no token ceiling, and an estimator that
    returns a number when its limit is [Infinity], every artifact of a
    group except the last one exceeds the byte ceiling in accounted bytes:
    a batch is only flushed before the end of the group once the running
    byte total has gone over the ceiling. *)
Theorem byte_ceiling_overshot
    (isWithinTokenLimit : string -> limit -> option N)
    (estimatorThrows : string -> limit -> bool)
    (readFile : string -> option string) (JSON_parse : string -> option json)
    (config : Config) (urlKey : string) (files : list string) :
  (forall text, isWithinTokenLimit text Infinity <> None) ->
  maxTokens config = None ->
  Forall (fun batch => exceeds (batchBytes batch) (maxBytes config) = true)
    (removelast
       (flushed
          (stateOf
             (processGroup isWithinTokenLimit estimatorThrows readFile
                JSON_parse config urlKey files)))).
Proof.
  intros Htotal HT. unfold processGroup.
  set (urlConfig := withOutputFileName config (urlKey ++ ".json")).
  assert (I : currentSize initState = batchBytes (currentResults initState)
              /\ Forall
                   (fun batch =>
                      exceeds (batchBytes batch) (maxBytes urlConfig) = true)
                   (flushed initState))
    by (split; [reflexivity | constructor]).
  pose proof (overshoot_processFiles isWithinTokenLimit estimatorThrows
                readFile JSON_parse urlConfig Htotal HT files initState I) as H.
  destruct (processFiles isWithinTokenLimit estimatorThrows readFile JSON_parse
              urlConfig files initState) as [st|st]; simpl in *.
  - unfold flushRemaining.
    destruct (nonEmpty (currentResults st)); simpl.
    + rewrite removelast_last. exact H.
    + apply Forall_removelast. exact H.
  - apply Forall_removelast. exact H.
Qed.



Lemma sample_total (text : string) :
  Sample.isWithinTokenLimit text Infinity <> None.
Proof. discriminate. Qed.

(** A group of two large records and a small one under a byte ceiling
    of one mebibyte. *)
Module LargeRun.

Lemma parse_bigX :
  SampleMore.parseLarge (Json.stringifyIndent2 Sample.bigX) = Some Sample.bigX.
Proof.
  unfold SampleMore.parseLarge. cbn [Sample.assoc].
  replace (String.eqb (Json.stringifyIndent2 Sample.bigX)
             (Json.stringifyIndent2 Sample.pageA)) with false
    by reflexivity.
  now rewrite String.eqb_refl.
Qed.

Lemma parse_bigY :
  SampleMore.parseLarge (Json.stringifyIndent2 Sample.bigY) = Some Sample.bigY.
Proof.
  unfold SampleMore.parseLarge. cbn [Sample.assoc].
  replace (String.eqb (Json.stringifyIndent2 Sample.bigY)
             (Json.stringifyIndent2 Sample.pageA)) with false
    by reflexivity.
  replace (String.eqb (Json.stringifyIndent2 Sample.bigY)
             (Json.stringifyIndent2 Sample.bigX)) with false
    by reflexivity.
  now rewrite String.eqb_refl.
Qed.

Lemma loadAll_large :
  loadAll SampleMore.readLarge SampleMore.parseLarge
    ["x.json"; "y.json"; "1.json"]
  = Some [Sample.bigX; Sample.bigY; Sample.pageA].
Proof.
  cbn [loadAll]. unfold loadFile.
  change (SampleMore.readLarge "x.json")
    with (Some (Json.stringifyIndent2 Sample.bigX)).
  change (SampleMore.readLarge "y.json")
    with (Some (Json.stringifyIndent2 Sample.bigY)).
  change (SampleMore.readLarge "1.json")
    with (Some (Json.stringifyIndent2 Sample.pageA)).
  cbv beta iota.
  rewrite parse_bigX, parse_bigY. reflexivity.
Qed.

(** Two records of 600093 accounted bytes each and a third, small one
    under a ceiling of one mebibyte and no token ceiling. *)
Lemma feed_large (x y a : json) :
  recordBytes x = 600093%N -> recordBytes y = 600093%N ->
  recordBytes a = 98%N ->
  feed Sample.isWithinTokenLimit
    (withOutputFileName SampleMore.cfgBytes "pages.json") [x; y; a]
    initState
  = mkState [a] 98 2 300073
      [("pages-1.json", Json.stringifyIndent2 (JArray [x; y]))]
      [[x; y]].
Proof.
  intros Hx Hy Ha. unfold feed. cbn [fold_left].
  unfold addContentOrSplit. rewrite !SampleFacts.estimate.
  fold (recordBytes x). fold (recordBytes y). fold (recordBytes a).
  rewrite Hx, Hy, Ha.
  reflexivity.
Qed.

Lemma group_large :
  processGroup Sample.isWithinTokenLimit Sample.estimatorThrows
    SampleMore.readLarge SampleMore.parseLarge SampleMore.cfgBytes "pages"
    ["x.json"; "y.json"; "1.json"]
  = Finished
      (mkState [] 0 3 300073
         [("pages-1.json",
           Json.stringifyIndent2 (JArray [Sample.bigX; Sample.bigY]));
          ("pages-2.json", Json.stringifyIndent2 (JArray [Sample.pageA]))]
         [[Sample.bigX; Sample.bigY]; [Sample.pageA]]).
Proof.
  unfold processGroup.
  change (withOutputFileName SampleMore.cfgBytes ("pages" ++ ".json"))
    with (withOutputFileName SampleMore.cfgBytes "pages.json").
  rewrite (processFiles_feed Sample.isWithinTokenLimit
             Sample.estimatorThrows SampleMore.readLarge
             SampleMore.parseLarge
             (withOutputFileName SampleMore.cfgBytes "pages.json")
             ["x.json"; "y.json"; "1.json"]
             [Sample.bigX; Sample.bigY; Sample.pageA] initState
             loadAll_large eq_refl).
  rewrite (feed_large Sample.bigX Sample.bigY Sample.pageA
             SampleFacts.recordBytes_bigX SampleFacts.recordBytes_bigY
             eq_refl).
  reflexivity.
Qed.

End LargeRun.

(** The hypotheses of X2 hold for the sample estimator and a configuration
    with a byte ceiling only.  The group of two large records and a small
    one is written as two artifacts; the first holds the two large
    records, 1200186 accounted bytes, more than the ceiling of 1048576. *)
Lemma byte_ceiling_overshot_witness :
  maxTokens SampleMore.cfgBytes = None
  /\ removelast
       (flushed
          (stateOf
             (processGroup Sample.isWithinTokenLimit
                Sample.estimatorThrows SampleMore.readLarge
                SampleMore.parseLarge SampleMore.cfgBytes "pages"
                ["x.json"; "y.json"; "1.json"])))
     = [[Sample.bigX; Sample.bigY]]
  /\ Forall
       (fun batch =>
          exceeds (batchBytes batch) (maxBytes SampleMore.cfgBytes) = true)
       (removelast
          (flushed
             (stateOf
                (processGroup Sample.isWithinTokenLimit
                   Sample.estimatorThrows SampleMore.readLarge
                   SampleMore.parseLarge SampleMore.cfgBytes "pages"
                   ["x.json"; "y.json"; "1.json"])))).
Proof.
  split; [reflexivity|]. split.
  - rewrite LargeRun.group_large. reflexivity.
  - apply (byte_ceiling_overshot Sample.isWithinTokenLimit
             Sample.estimatorThrows SampleMore.readLarge
             SampleMore.parseLarge SampleMore.cfgBytes "pages"
             ["x.json"; "y.json"; "1.json"] sample_total eq_refl).
Defined.



(** ** Empty artifacts *)

Section NonEmpty.

Variable isWithinTokenLimit : string -> limit -> option N.
Variable estimatorThrows : string -> limit -> bool.
Variable readFile : string -> option string.
Variable JSON_parse : string -> option json.
Variable urlConfig : Config.

Hypothesis measuredAll :
  forall text, isWithinTokenLimit text (tokenLimit urlConfig) <> None.

Lemma nonEmpty_true (batch : list json) :
  nonEmpty batch = true -> batch <> [].
Proof. destruct batch; [discriminate | discriminate]. Qed.

Lemma filled_step (data : json) (st : state) :
  Forall (fun batch => batch <> []) (flushed st) ->
  Forall (fun batch => batch <> [])
    (flushed (addContentOrSplit isWithinTokenLimit urlConfig data st)).
Proof.
  intro H. unfold addContentOrSplit, tokenBranch.
  destruct (isWithinTokenLimit (Json.stringify data) (tokenLimit urlConfig))
    as [t|] eqn:E; [|now apply measuredAll in E].
  assert (P : forall s, (currentResults s ++ [data])%list <> [])
    by (intros s A; now apply app_eq_nil in A).
  unfold byteBranch.
  destruct (overMaxTokens (estimatedTokens st + t) urlConfig).
  - destruct (nonEmpty (currentResults st)) eqn:NE.
    + apply nonEmpty_true in NE.
      destruct (exceeds _ _); simpl.
      * apply Forall_app; split; [|repeat constructor; discriminate].
        apply Forall_app; split; [exact H | now repeat constructor].
      * apply Forall_app; split; [exact H | now repeat constructor].
    + destruct (exceeds _ _); simpl; [|exact H].
      apply Forall_app; split; [exact H|]. constructor; [apply P|constructor].
  - destruct (exceeds _ _); simpl; [|exact H].
    apply Forall_app; split; [exact H|]. constructor; [apply P|constructor].
Qed.

Lemma filled_processFiles (files : list string) (st : state) :
  Forall (fun batch => batch <> []) (flushed st) ->
  Forall (fun batch => batch <> [])
    (flushed
       (stateOf
          (processFiles isWithinTokenLimit estimatorThrows readFile JSON_parse
             urlConfig files st))).
Proof.
  revert st. induction files as [|f files IH]; intros st H; simpl; [exact H|].
  destruct (readFile f) as [c|]; [|exact H].
  destruct (JSON_parse c) as [d|]; [|exact H].
  destruct (estimatorThrows (Json.stringify d) (tokenLimit urlConfig));
    [exact H|].
  apply IH. now apply filled_step.
Qed.

End NonEmpty.

(** X4: when the estimator returns a number for every text at the
    configured token limit (as it does without a token ceiling), no
    artifact of a group is an empty array: every flush then writes at least
    one record. *)
Theorem no_empty_artifact_when_measured
    (isWithinTokenLimit : string -> limit -> option N)
    (estimatorThrows : string -> limit -> bool)
    (readFile : string -> option string) (JSON_parse : string -> option json)
    (config : Config) (urlKey : string) (files : list string) :
  (forall text, isWithinTokenLimit text (tokenLimit config) <> None) ->
  Forall (fun batch => batch <> [])
    (flushed
       (stateOf
          (processGroup isWithinTokenLimit estimatorThrows readFile JSON_parse
             config urlKey files))).
Proof.
  intro M. unfold processGroup.
  set (urlConfig := withOutputFileName config (urlKey ++ ".json")).
  assert (I : Forall (fun batch : list json => batch <> []) (flushed initState))
    by constructor.
  pose proof (filled_processFiles isWithinTokenLimit estimatorThrows readFile
                JSON_parse urlConfig M files initState I) as H.
  destruct (processFiles isWithinTokenLimit estimatorThrows readFile JSON_parse
              urlConfig files initState) as [st|st]; simpl in *; [|exact H].
  unfold flushRemaining.
  destruct (nonEmpty (currentResults st)) eqn:NE; [|exact H]. simpl.
  apply Forall_app; split; [exact H|].
  constructor; [now apply nonEmpty_true | constructor].
Qed.

(** The hypothesis of X4 holds for the sample estimator without a token
    ceiling. *)
Lemma no_empty_artifact_witness :
  (forall text,
     Sample.isWithinTokenLimit text (tokenLimit SampleMore.cfgBytes) <> None)
  /\ Forall (fun batch => batch <> [])
       (flushed
          (stateOf
             (processGroup Sample.isWithinTokenLimit Sample.estimatorThrows
                Sample.readFile Sample.JSON_parse SampleMore.cfgBytes "pages"
                ["1.json"; "2.json"; "3.json"]))).
Proof.
  split; [exact sample_total|].
  apply (no_empty_artifact_when_measured Sample.isWithinTokenLimit
           Sample.estimatorThrows
           Sample.readFile Sample.JSON_parse SampleMore.cfgBytes "pages"
           ["1.json"; "2.json"; "3.json"]).
  exact sample_total.
Defined.

(** X5: a record for which the estimator returns a non-numeric result and
    whose bytes take the running total over the byte ceiling triggers a
    flush although it was not appended; with nothing pending, the file
    written holds the empty array and a sequence index is used up. *)
Theorem unmeasured_record_flushes_empty_array
    (isWithinTokenLimit : string -> limit -> option N) (urlConfig : Config)
    (data : json) (st : state) :
  currentResults st = [] ->
  isWithinTokenLimit (Json.stringify data) (tokenLimit urlConfig) = None ->
  exceeds (currentSize st + recordBytes data) (maxBytes urlConfig) = true ->
  written (addContentOrSplit isWithinTokenLimit urlConfig data st)
  = (written st ++ [(nextFileName urlConfig st, "[]")])%list
  /\ fileCounter (addContentOrSplit isWithinTokenLimit urlConfig data st)
     = (fileCounter st + 1)%N
  /\ currentResults (addContentOrSplit isWithinTokenLimit urlConfig data st)
     = [].
Proof.
  intros Hp Hm Hb. unfold addContentOrSplit. rewrite Hm.
  unfold tokenBranch, byteBranch.
  change (Str.byteLength (Json.stringify data)) with (recordBytes data).
  cbn [addSize currentSize]. rewrite Hb.
  unfold writeBatchToFile. cbn [written fileCounter currentResults addSize].
  rewrite Hp. repeat split.
Qed.

Lemma recordBytes_bigW : recordBytes SampleMore.bigW = 2000093%N.
Proof.
  unfold SampleMore.bigW. rewrite SampleFacts.recordBytes_bigPage. reflexivity.
Qed.

(** The hypotheses of X5 hold at the start of a group for a record of
    2000093 bytes and 500024 tokens under ceilings of one mebibyte and
    400000 tokens. *)
Lemma empty_array_witness :
  Sample.isWithinTokenLimit (Json.stringify SampleMore.bigW)
    (tokenLimit Sample.cfgBoth) = None
  /\ written
       (addContentOrSplit Sample.isWithinTokenLimit Sample.cfgBoth
          SampleMore.bigW initState)
     = [("output-1.json", "[]")].
Proof.
  assert (M : Sample.isWithinTokenLimit (Json.stringify SampleMore.bigW)
                (tokenLimit Sample.cfgBoth) = None)
    by (rewrite SampleFacts.estimate, recordBytes_bigW; reflexivity).
  assert (B : exceeds (currentSize initState + recordBytes SampleMore.bigW)
                (maxBytes Sample.cfgBoth) = true)
    by (rewrite recordBytes_bigW; reflexivity).
  split; [exact M|].
  exact (proj1 (unmeasured_record_flushes_empty_array
                  Sample.isWithinTokenLimit Sample.cfgBoth SampleMore.bigW
                  initState eq_refl M B)).
Defined.

(** ** A file that cannot be read or parsed *)



(** ** Several configurations over one dataset *)



(** ** Artifact names *)

Module NameFacts.

Lemma app_assoc3 (a b c : string) : (a ++ b) ++ c = a ++ b ++ c.
Proof.
  induction a as [|x a IH]; simpl; [reflexivity | now rewrite IH].
Qed.

Lemma app_inv_head (p a b : string) : p ++ a = p ++ b -> a = b.
Proof.
  induction p as [|c p IH]; simpl; intro H; [exact H|].
  inversion H. now apply IH.
Qed.

Lemma app_inv_tail (a b s : string) : a ++ s = b ++ s -> a = b.
Proof.
  revert b. induction a as [|c a IH]; intros b H.
  - destruct b as [|d b]; [reflexivity|].
    apply (f_equal String.length) in H. simpl in H.
    rewrite StrFacts.length_app in H. lia.
  - destruct b as [|d b].
    + apply (f_equal String.length) in H. simpl in H.
      rewrite StrFacts.length_app in H. lia.
    + simpl in H. inversion H. f_equal. now apply IH.
Qed.

(** The decimal rendering is one to one. *)
Lemma ofN_inj (n m : N) : Str.ofN n = Str.ofN m -> n = m.
Proof.
  unfold Str.ofN. intro H.
  assert (Z : forall k, N.to_uint k <> Decimal.Nil).
  { intros [|p]; [discriminate | apply DecimalPos.Unsigned.to_uint_nonnil]. }
  apply DecimalN.Unsigned.to_uint_inj.
  pose proof (NilZero.usu _ (Z n)) as Hn.
  pose proof (NilZero.usu _ (Z m)) as Hm.
  rewrite H in Hn. rewrite Hn in Hm. now inversion Hm.
Qed.

Lemma hyphenFree_uint (d : Decimal.uint) :
  hyphenFree (NilEmpty.string_of_uint d) = true.
Proof.
  induction d; simpl; auto.
Qed.

Lemma hyphenFree_ofN (n : N) : hyphenFree (Str.ofN n) = true.
Proof.
  unfold Str.ofN, NilZero.string_of_uint.
  destruct (N.to_uint n); try reflexivity; apply hyphenFree_uint.
Qed.

Lemma hyphenFree_app (a b : string) :
  hyphenFree (a ++ b) = true -> hyphenFree b = true.
Proof.
  induction a as [|c a IH]; simpl; [auto|].
  intro H. apply andb_prop in H. now apply IH.
Qed.

(** A key, a hyphen and a hyphen-free rest determine the key and the
    rest. *)
Lemma split_at_last_hyphen (k k' d d' : string) :
  hyphenFree d = true -> hyphenFree d' = true ->
  k ++ "-" ++ d = k' ++ "-" ++ d' -> k = k' /\ d = d'.
Proof.
  intros Hd Hd'. revert k'.
  induction k as [|c k IH]; intros k' H.
  - destruct k' as [|c' k']; simpl in H.
    + inversion H. now split.
    + inversion H; subst. exfalso.
      assert (F : hyphenFree ("-" ++ d') = true)
        by (apply (hyphenFree_app k'); exact Hd).
      simpl in F. discriminate.
  - destruct k' as [|c' k']; simpl in H.
    + inversion H; subst. exfalso.
      assert (F : hyphenFree ("-" ++ d) = true)
        by (apply (hyphenFree_app k); exact Hd').
      simpl in F. discriminate.
    + inversion H; subst. destruct (IH k' H2) as [-> ->]. now split.
Qed.

(** An artifact name determines its group key and its index. *)
Lemma artifactName_inj (k k' : string) (i j : N) :
  artifactName k i = artifactName k' j -> k = k' /\ i = j.
Proof.
  unfold artifactName. intro H.
  assert (E : k ++ "-" ++ Str.ofN i = k' ++ "-" ++ Str.ofN j).
  { apply (app_inv_tail _ _ ".json"). now rewrite !app_assoc3. }
  destruct (split_at_last_hyphen k k' _ _ (hyphenFree_ofN i) (hyphenFree_ofN j)
              E) as [Hk Hd].
  split; [exact Hk | now apply ofN_inj].
Qed.

End NameFacts.

Section GroupNames.

Variable isWithinTokenLimit : string -> limit -> option N.
Variable estimatorThrows : string -> limit -> bool.
Variable readFile : string -> option string.
Variable JSON_parse : string -> option json.

Lemma names_from (urlKey : string) (i : N) (batches : list (list json))
    (name : string) :
  In name (map fst (artifactsFrom urlKey i batches)) ->
  exists j, (i <= j)%N /\ name = artifactName urlKey j.
Proof.
  revert i. induction batches as [|b batches IH]; intros i H; simpl in H;
    [contradiction|].
  destruct H as [H|H].
  - exists i. split; [lia | now symmetry].
  - destruct (IH _ H) as (j & Hj & E). exists j. split; [lia | exact E].
Qed.

Lemma NoDup_artifactsFrom (urlKey : string) (i : N)
    (batches : list (list json)) :
  NoDup (map fst (artifactsFrom urlKey i batches)).
Proof.
  revert i. induction batches as [|b batches IH]; intro i; simpl;
    constructor; [|apply IH].
  intro H. apply names_from in H. destruct H as (j & Hj & E).
  apply NameFacts.artifactName_inj in E. lia.
Qed.

(** X8: the files a group writes have pairwise distinct names, whatever the
    ceilings and whether or not the group runs to its end: within a group
    no artifact is written over another one. *)
Theorem group_artifact_names_distinct (config : Config) (urlKey : string)
    (files : list string) :
  NoDup
    (map fst
       (written
          (stateOf
             (processGroup isWithinTokenLimit estimatorThrows readFile
                JSON_parse config urlKey files)))).
Proof.
  destruct (numbered_processGroup isWithinTokenLimit estimatorThrows readFile
              JSON_parse config urlKey files) as [Hw _].
  rewrite Hw. apply NoDup_artifactsFrom.
Qed.

(** The names written by the loop over the groups are distinct when the
    keys of the groups are. *)
Lemma NoDup_processGroups (config : Config) (groups : fileMap)
    (log : list (string * string)) :
  NoDup (map fst groups) ->
  NoDup (map fst log) ->
  (forall name k j,
     In name (map fst log) -> In k (map fst groups) ->
     name <> artifactName k j) ->
  NoDup
    (map fst
       (fst (processGroups isWithinTokenLimit estimatorThrows readFile
               JSON_parse config groups log))).
Proof.
  revert log. induction groups as [|[k files] groups IH];
    intros log Hk Hlog Hfresh; simpl; [exact Hlog|].
  inversion Hk as [|? ? Hnotin Hk']; subst.
  pose proof (numbered_processGroup isWithinTokenLimit estimatorThrows readFile
                JSON_parse config k files) as [Hw _].
  assert (Hnew : NoDup
                   (map fst
                      (log
                       ++ written
                            (stateOf
                               (processGroup isWithinTokenLimit estimatorThrows
                                  readFile JSON_parse config k files)))%list)).
  { rewrite map_app. apply NoDup_app; [exact Hlog | |].
    - rewrite Hw. apply NoDup_artifactsFrom.
    - intros name H1 H2. rewrite Hw in H2. apply names_from in H2.
      destruct H2 as (j & _ & E).
      apply (Hfresh name k j H1); [now left | exact E]. }
  destruct (processGroup isWithinTokenLimit estimatorThrows readFile JSON_parse
    config k files) as [st|st]; simpl in *; [|exact Hnew].
  apply IH; [exact Hk' | exact Hnew |].
  intros name k' j Hin Hk'in. rewrite map_app in Hin.
  apply in_app_or in Hin. destruct Hin as [Hin|Hin].
  - apply Hfresh; [exact Hin | now right].
  - rewrite Hw in Hin. apply names_from in Hin. destruct Hin as (i & _ & E).
    intro F. rewrite E in F. apply NameFacts.artifactName_inj in F.
    destruct F as [F _]. subst. contradiction.
Qed.

End GroupNames.

(** ** Grouping by key *)

Section Categorize.

Variable key : string -> string.

Lemma has_filesUnder (k : string) (m : fileMap) :
  FileMap.has k m
  = match filesUnder k m with Some _ => true | None => false end.
Proof.
  induction m as [|[k' fs] m IH]; simpl; [reflexivity|].
  now destruct (String.eqb k k').
Qed.

Lemma keys_push (k file : string) (m : fileMap) :
  map fst (FileMap.push k file m) = map fst m.
Proof.
  induction m as [|[k' fs] m IH]; simpl; [reflexivity|].
  destruct (String.eqb k k'); simpl; [reflexivity | now rewrite IH].
Qed.

Lemma filesUnder_push (k k' file : string) (m : fileMap) :
  filesUnder k' (FileMap.push k file m)
  = if String.eqb k' k
    then option_map (fun fs => (fs ++ [file])%list) (filesUnder k m)
    else filesUnder k' m.
Proof.
  induction m as [|[k0 fs] m IH]; simpl.
  - now destruct (String.eqb k' k).
  - destruct (String.eqb_spec k k0) as [E|NE]; simpl.
    + subst k0. destruct (String.eqb_spec k' k) as [E'|NE']; [reflexivity|].
      reflexivity.
    + destruct (String.eqb_spec k' k0) as [E'|NE'].
      * subst k0. destruct (String.eqb_spec k' k) as [E2|_]; [|reflexivity].
        subst. contradiction.
      * exact IH.
Qed.

Lemma filesUnder_new (k k' : string) (m : fileMap) :
  filesUnder k m = None ->
  filesUnder k' (m ++ [(k, [])])%list
  = if String.eqb k' k then Some [] else filesUnder k' m.
Proof.
  intro H. induction m as [|[k0 fs] m IH]; simpl in *; [reflexivity|].
  destruct (String.eqb_spec k k0) as [E|NE]; [discriminate|].
  destruct (String.eqb_spec k' k0) as [E'|NE'].
  - subst k0. destruct (String.eqb_spec k' k) as [E2|_]; [|reflexivity].
    subst. contradiction.
  - now apply IH.
Qed.

Lemma filesUnder_none_notin (k : string) (m : fileMap) :
  filesUnder k m = None -> ~ In k (map fst m).
Proof.
  induction m as [|[k0 fs] m IH]; simpl; [auto|].
  destruct (String.eqb_spec k k0) as [E|NE]; [discriminate|].
  intros H [F|F]; [now subst | now apply IH].
Qed.

Lemma filesUnder_add (k k' file : string) (m : fileMap) :
  filesUnder k' (FileMap.add k file m)
  = if String.eqb k' k
    then Some (match filesUnder k m with
               | Some fs => fs ++ [file]
               | None => [file]
               end)%list
    else filesUnder k' m.
Proof.
  unfold FileMap.add. rewrite has_filesUnder, filesUnder_push.
  destruct (filesUnder k m) as [fs|] eqn:E.
  - now rewrite E.
  - rewrite !(filesUnder_new k _ m E), String.eqb_refl. simpl.
    now destruct (String.eqb k' k).
Qed.

Lemma NoDup_keys_add (k file : string) (m : fileMap) :
  NoDup (map fst m) -> NoDup (map fst (FileMap.add k file m)).
Proof.
  intro H. unfold FileMap.add. rewrite keys_push, has_filesUnder.
  destruct (filesUnder k m) as [fs|] eqn:E; [exact H|].
  rewrite map_app. simpl. apply NoDup_app; [exact H | repeat constructor; auto
      |].
  intros x Hx [Hk|[]]. subst x.
  now apply (filesUnder_none_notin k m E).
Qed.

Lemma filesWithKey_snoc (k file : string) (files : list string) :
  filesWithKey key k (files ++ [file])%list
  = (filesWithKey key k files
     ++ if String.eqb (key file) k then [file] else [])%list.
Proof.
  unfold filesWithKey. rewrite filter_app. simpl.
  now destruct (String.eqb (key file) k).
Qed.

(** What the grouping loop has built after the files [done]. *)
Lemma grouping_invariant (files done : list string) (m : fileMap) :
  NoDup (map fst m) ->
  (forall k,
     filesUnder k m
     = match filesWithKey key k done with
       | [] => None
       | l => Some l
       end) ->
  NoDup
    (map fst
       (fold_left (fun acc file => FileMap.add (key file) file acc) files m))
  /\ forall k,
       filesUnder k
         (fold_left (fun acc file => FileMap.add (key file) file acc) files m)
       = match filesWithKey key k (done ++ files)%list with
         | [] => None
         | l => Some l
         end.
Proof.
  revert done m. induction files as [|f files IH]; intros done m Hnd Hm.
  - simpl. rewrite List.app_nil_r. now split.
  - simpl fold_left.
    replace (done ++ f :: files)%list with ((done ++ [f]) ++ files)%list
      by (now rewrite <- List.app_assoc).
    apply IH; [now apply NoDup_keys_add|].
    intro k. rewrite filesUnder_add, filesWithKey_snoc, (Hm (key f)), (Hm k).
    destruct (String.eqb_spec k (key f)) as [E|NE].
    + subst k. rewrite String.eqb_refl.
      destruct (filesWithKey key (key f) done); reflexivity.
    + destruct (String.eqb_spec (key f) k) as [E'|_];
        [now subst; contradiction|].
      now rewrite List.app_nil_r.
Qed.

Lemma In_filesUnder (k : string) (fs : list string) (m : fileMap) :
  NoDup (map fst m) -> In (k, fs) m -> filesUnder k m = Some fs.
Proof.
  induction m as [|[k0 fs0] m IH]; simpl; [contradiction|].
  intros Hnd [H|H].
  - inversion H; subst. now rewrite String.eqb_refl.
  - inversion Hnd as [|? ? Hnotin Hnd']; subst.
    destruct (String.eqb_spec k k0) as [E|NE].
    + subst. exfalso. apply Hnotin.
      change k0 with (fst (k0, fs)). now apply in_map.
    + now apply IH.
Qed.

End Categorize.

(** X9: the grouping loop of the earlier [write] builds groups with
    pairwise distinct keys, in which every file of the dataset sits under
    the key derived from it and nowhere else: the files under a key are
    exactly the dataset files with that key, in dataset order, and no group
    is empty. *)
Theorem legacy_groups_partition_dataset
    (readFile : string -> option string) (JSON_parse : string -> option json)
    (newURL : json -> option (string * string)) (files : list string) :
  NoDup (map fst (Legacy.categorizeByUrl readFile JSON_parse newURL files))
  /\ (forall k,
        filesUnder k
          (Legacy.categorizeByUrl readFile JSON_parse newURL files)
        = match filesWithKey (Legacy.urlKeyOf readFile JSON_parse newURL)
                  k files with
          | [] => None
          | l => Some l
          end)
  /\ (forall k fs,
        In (k, fs) (Legacy.categorizeByUrl readFile JSON_parse newURL files) ->
        fs <> []
        /\ fs = filesWithKey (Legacy.urlKeyOf readFile JSON_parse newURL)
                  k files).
Proof.
  destruct (grouping_invariant (Legacy.urlKeyOf readFile JSON_parse newURL)
              files [] []) as [Hnd Hm]; [constructor | reflexivity |].
  split; [exact Hnd|]. split; [exact Hm|].
  intros k fs Hin.
  pose proof (In_filesUnder k fs _ Hnd Hin) as E.
  unfold Legacy.categorizeByUrl in E. rewrite Hm in E. simpl in E.
  destruct (filesWithKey _ k files) as [|x l]; [discriminate|].
  inversion E; subst. split; [discriminate | reflexivity].
Qed.

(** X10: the earlier [write] never writes two files under one name: over
    all groups, and whether or not it runs to its end, the names it passes
    to [writeFile] are pairwise distinct. *)
Theorem legacy_write_names_distinct
    (isWithinTokenLimit : string -> limit -> option N)
    (estimatorThrows : string -> limit -> bool)
    (readFile : string -> option string) (JSON_parse : string -> option json)
    (newURL : json -> option (string * string)) (jsonFiles : list string)
    (config : Config) :
  NoDup
    (map fst
       (fst (Legacy.write isWithinTokenLimit estimatorThrows readFile
               JSON_parse newURL jsonFiles config))).
Proof.
  unfold Legacy.write.
  apply NoDup_processGroups; [|constructor | intros name k j []].
  destruct (grouping_invariant (Legacy.urlKeyOf readFile JSON_parse newURL)
              jsonFiles [] []) as [Hnd _]; [constructor | reflexivity |].
  exact Hnd.
Qed.

(** ** [crawl] over an array of configurations *)

Section CrawlFacts.

Variable downloadListOfUrls : string -> option (list string).
Variable noCrawl : bool.

Lemma queues_from (configList : list Config) (rqNo : N) (s : session) :
  In s (fst (crawlEach downloadListOfUrls noCrawl configList rqNo)) ->
  exists j, (rqNo <= j)%N /\ queueName s = Some ("rq_" ++ Str.ofN j).
Proof.
  revert rqNo. induction configList as [|c rest IH]; intros rqNo H;
    simpl in H; [contradiction|].
  destruct (crawlEach downloadListOfUrls noCrawl rest (rqNo + 1))
    as [sessions completed] eqn:E.
  assert (Htail : In s sessions ->
                  exists j, (rqNo <= j)%N
                            /\ queueName s = Some ("rq_" ++ Str.ofN j)).
  { intros Hx. destruct (IH (rqNo + 1)%N) as (j & Hj & Hq).
    - now rewrite E.
    - exists j. split; [lia | exact Hq]. }
  destruct (crawlSingle downloadListOfUrls noCrawl c true); simpl in H.
  - destruct H as [<-|H]; [exists rqNo; split; [lia | reflexivity]|].
    now apply Htail.
  - destruct H as [<-|[]]. exists rqNo. split; [lia | reflexivity].
  - destruct H as [<-|H]; [exists rqNo; split; [lia | reflexivity]|].
    now apply Htail.
Qed.

Lemma queue_inj (i j : N) :
  Some ("rq_" ++ Str.ofN i) = Some ("rq_" ++ Str.ofN j) -> i = j.
Proof.
  intro H. inversion H as [E]. now apply NameFacts.ofN_inj.
Qed.

Lemma NoDup_queues (configList : list Config) (rqNo : N) :
  NoDup
    (map queueName
       (fst (crawlEach downloadListOfUrls noCrawl configList rqNo))).
Proof.
  revert rqNo. induction configList as [|c rest IH]; intro rqNo; simpl;
    [constructor|].
  pose proof (IH (rqNo + 1)%N) as Hrest.
  pose proof (fun s => queues_from rest (rqNo + 1) s) as Hfrom.
  destruct (crawlEach downloadListOfUrls noCrawl rest (rqNo + 1))
    as [sessions completed].
  assert (Hhead : ~ In (Some ("rq_" ++ Str.ofN rqNo))
                      (map queueName sessions)).
  { intro H. apply in_map_iff in H. destruct H as (s & Hs & Hin).
    destruct (Hfrom s Hin) as (j & Hj & Hq). rewrite Hq in Hs.
    apply queue_inj in Hs. lia. }
  destruct (crawlSingle downloadListOfUrls noCrawl c true); simpl.
  - constructor; assumption.
  - repeat constructor. auto.
  - constructor; assumption.
Qed.

Lemma completed_crawlEach (configList : list Config) (rqNo : N) :
  snd (crawlEach downloadListOfUrls noCrawl configList rqNo) = true ->
  List.length (fst (crawlEach downloadListOfUrls noCrawl configList rqNo))
  = List.length configList
  /\ Forall (fun s => queueDropped s = true)
       (fst (crawlEach downloadListOfUrls noCrawl configList rqNo)).
Proof.
  revert rqNo. induction configList as [|c rest IH]; intros rqNo H; simpl in *.
  - split; [reflexivity | constructor].
  - specialize (IH (rqNo + 1)%N).
    destruct (crawlEach downloadListOfUrls noCrawl rest (rqNo + 1))
      as [sessions completed].
    destruct (crawlSingle downloadListOfUrls noCrawl c true); simpl in *;
      try discriminate;
      destruct (IH H) as [Hl Hd];
      (split; [now rewrite Hl | now constructor]).
Qed.

(** X11: for an array of configurations [crawl] gives every call of
    [crawlSingle] a request queue of its own: the queue names are pairwise
    distinct, and when the loop runs to its end there was one call per
    configuration and every queue was dropped after its crawl. *)
Theorem crawl_queues_isolated (configList : list Config) :
  NoDup
    (map queueName
       (fst (crawl downloadListOfUrls noCrawl (Batch configList))))
  /\ Forall (fun s => queueName s <> None)
       (fst (crawl downloadListOfUrls noCrawl (Batch configList)))
  /\ (snd (crawl downloadListOfUrls noCrawl (Batch configList)) = true ->
      List.length (fst (crawl downloadListOfUrls noCrawl (Batch configList)))
      = List.length configList
      /\ Forall (fun s => queueDropped s = true)
           (fst (crawl downloadListOfUrls noCrawl (Batch configList)))).
Proof.
  simpl. split; [apply NoDup_queues|]. split; [|apply completed_crawlEach].
  apply Forall_forall. intros s Hs.
  destruct (queues_from configList 0 s Hs) as (j & _ & Hq).
  rewrite Hq. discriminate.
Qed.

Lemma length_crawlEach_failure (before after : list Config) (c : Config)
    (rqNo : N) :
  Forall
    (fun b => crawlSingle downloadListOfUrls noCrawl b true <> SeedFailed)
    before ->
  crawlSingle downloadListOfUrls noCrawl c true = SeedFailed ->
  snd (crawlEach downloadListOfUrls noCrawl (before ++ c :: after)%list rqNo)
  = false
  /\ List.length
       (fst (crawlEach downloadListOfUrls noCrawl
               (before ++ c :: after)%list rqNo))
     = S (List.length before).
Proof.
  intros Hb Hc. revert rqNo.
  induction Hb as [|b before Hb Hrest IH]; intro rqNo; simpl.
  - rewrite Hc. split; reflexivity.
  - specialize (IH (rqNo + 1)%N).
    destruct (crawlEach downloadListOfUrls noCrawl (before ++ c :: after)%list
                (rqNo + 1)) as [sessions completed].
    destruct (crawlSingle downloadListOfUrls noCrawl b true) eqn:E;
      try contradiction; simpl in *; destruct IH as [I1 I2];
      (split; [exact I1 | now rewrite I2]).
Qed.

Lemma failed_not_dropped (configList : list Config) (rqNo : N) :
  Forall (fun s => started s = SeedFailed -> queueDropped s = false)
    (fst (crawlEach downloadListOfUrls noCrawl configList rqNo)).
Proof.
  revert rqNo. induction configList as [|x l IH]; intro n;
    [constructor|].
  cbn [crawlEach]. specialize (IH (n + 1)%N).
  destruct (crawlEach downloadListOfUrls noCrawl l (n + 1)) as [ss ok].
  destruct (crawlSingle downloadListOfUrls noCrawl x true) eqn:E;
    cbn [fst] in *.
  - constructor; [discriminate | exact IH].
  - repeat constructor.
  - constructor; [discriminate | exact IH].
Qed.

End CrawlFacts.

(** X12: a sitemap that cannot be downloaded stops the whole [crawl] of an
    array: the loop rejects at that configuration, whose queue is not
    dropped, and the configurations after it are never crawled. *)
Theorem crawl_stops_at_failed_sitemap
    (downloadListOfUrls : string -> option (list string))
    (before after : list Config) (c : Config) :
  Forall
    (fun b =>
       isUrlASitemap (url b) = false \/ downloadListOfUrls (url b) <> None)
    before ->
  isUrlASitemap (url c) = true ->
  downloadListOfUrls (url c) = None ->
  snd (crawl downloadListOfUrls false (Batch (before ++ c :: after)%list))
  = false
  /\ List.length
       (fst (crawl downloadListOfUrls false
               (Batch (before ++ c :: after)%list)))
     = S (List.length before)
  /\ Forall (fun s => started s = SeedFailed -> queueDropped s = false)
       (fst (crawl downloadListOfUrls false
               (Batch (before ++ c :: after)%list))).
Proof.
  intros Hb Hs Hd.
  assert (Hb' : Forall
                  (fun b =>
                     crawlSingle downloadListOfUrls false b true <> SeedFailed)
                  before).
  { eapply Forall_impl; [|exact Hb]. intros b H. unfold crawlSingle.
    destruct (isUrlASitemap (url b)) eqn:S; [|discriminate].
    destruct H as [H|H]; [rewrite S in H; discriminate H|].
    destruct (downloadListOfUrls (url b)); [discriminate | contradiction]. }
  assert (Hc : crawlSingle downloadListOfUrls false c true = SeedFailed)
    by (unfold crawlSingle; now rewrite Hs, Hd).
  destruct (length_crawlEach_failure downloadListOfUrls false before after c 0
              Hb' Hc) as [H1 H2].
  split; [exact H1|]. split; [exact H2|].
  apply failed_not_dropped.
Qed.

(** The hypotheses of X12 hold for the sample download: the third of four
    configurations names a sitemap that cannot be downloaded, and the
    fourth is never crawled. *)
Lemma crawl_stops_witness :
  isUrlASitemap (url SampleMore.cfgBroken) = true
  /\ Sample.downloadListOfUrls (url SampleMore.cfgBroken) = None
  /\ List.length
       (fst (crawl Sample.downloadListOfUrls false
               (Batch [Sample.cfgPlain; SampleMore.cfgDirect;
                       SampleMore.cfgBroken; Sample.cfgPlain])))
     = 3.
Proof.
  split; [reflexivity|]. split; [reflexivity|].
  apply (crawl_stops_at_failed_sitemap Sample.downloadListOfUrls
           [Sample.cfgPlain; SampleMore.cfgDirect] [Sample.cfgPlain]
           SampleMore.cfgBroken).
  - constructor; [right; discriminate|].
    constructor; [left; reflexivity | constructor].
  - reflexivity.
  - reflexivity.
Defined.

(** ** File names of the revision that writes one file per page *)

Module DirectFacts.

Lemma allSafe_replaceUnsafe (s : string) :
  Direct.allSafe (Direct.replaceUnsafe s) = true.
Proof.
  induction s as [|c s IH]; simpl; [reflexivity|].
  rewrite IH. destruct (Direct.isSafeChar c) eqn:E; [now rewrite E|].
  reflexivity.
Qed.

Lemma length_replaceUnsafe (s : string) :
  String.length (Direct.replaceUnsafe s) = String.length s.
Proof.
  induction s as [|c s IH]; simpl; [reflexivity | now rewrite IH].
Qed.

Lemma length_replaceSlashes (s : string) :
  String.length (Str.replaceSlashes s) = String.length s.
Proof.
  induction s as [|c s IH]; simpl; [reflexivity | now rewrite IH].
Qed.

Lemma length_stripLeadingUnderscore (s : string) :
  String.length (Str.stripLeadingUnderscore s) <= String.length s.
Proof.
  destruct s as [|c s]; simpl; [lia|].
  destruct (Ascii.eqb c "_"); simpl; lia.
Qed.

(** Safe characters are kept by both replacements. *)
Lemma replaceUnsafe_safe (s : string) :
  Direct.allSafe s = true -> Direct.replaceUnsafe s = s.
Proof.
  induction s as [|c s IH]; simpl; [reflexivity|].
  intro H. apply andb_prop in H. destruct H as [Hc Hs].
  now rewrite Hc, IH.
Qed.

Lemma slash_unsafe (c : ascii) :
  Direct.isSafeChar c = true -> Ascii.eqb c "/" = false.
Proof.
  destruct (Ascii.eqb_spec c "/"%char) as [->|]; [discriminate | reflexivity].
Qed.

Lemma replaceSlashes_safe (s : string) :
  Direct.allSafe s = true -> Str.replaceSlashes s = s.
Proof.
  induction s as [|c s IH]; simpl; [reflexivity|].
  intro H. apply andb_prop in H. destruct H as [Hc Hs].
  now rewrite (slash_unsafe c Hc), IH.
Qed.

Lemma allSafe_cleanPathname (pathname : string) :
  Direct.allSafe (Direct.cleanPathname pathname) = true.
Proof. apply allSafe_replaceUnsafe. Qed.

(** The page whose path is the clean path name of another page, after a
    slash, has the same clean path name. *)
Lemma cleanPathname_again (pathname : string) :
  Direct.cleanPathname ("/" ++ Direct.cleanPathname pathname)
  = Direct.cleanPathname pathname.
Proof.
  unfold Direct.cleanPathname at 1.
  change (Str.replaceSlashes ("/" ++ Direct.cleanPathname pathname))
    with (String "_" (Str.replaceSlashes (Direct.cleanPathname pathname))).
  cbn [Str.stripLeadingUnderscore]. change (Ascii.eqb "_" "_") with true.
  cbv iota.
  rewrite (replaceSlashes_safe _ (allSafe_cleanPathname pathname)).
  apply replaceUnsafe_safe, allSafe_cleanPathname.
Qed.

Lemma sourceUrlOf_pageData (title loadedUrl html : string) :
  sourceUrlOf (Direct.pageData title loadedUrl html)
  = Some (Some (JString loadedUrl)).
Proof.
  unfold sourceUrlOf, Direct.pageData. simpl. unfold Json.orElse.
  now destruct (Json.truthy (Some (JString loadedUrl))).
Qed.

End DirectFacts.

(** X13: the name [generateFilenameFromUrl] builds always ends with
    [.json], for a URL that parses and for one that does not.  For a URL
    that parses the name is the base name, an underscore, the host and the
    clean path of that URL, and this clean path has only letters, digits,
    underscores, hyphens and dots (so no slash) and is not longer than the
    path of the URL; for a URL that is absent or does not parse the name
    is the base name, an underscore and the time stamp. *)
Theorem generated_filename_is_safe
    (newURL : json -> option (string * string)) (timestamp : N)
    (baseFilename : string) (url : option json) (value : json)
    (hostname pathname : string) :
  Str.endsWith
    (Direct.generateFilenameFromUrl newURL timestamp baseFilename url)
    ".json" = true
  /\ (newURL value = Some (hostname, pathname) ->
      Direct.generateFilenameFromUrl newURL timestamp baseFilename
        (Some value)
      = Str.stripJsonSuffix baseFilename ++ "_" ++ hostname
        ++ Direct.cleanPathname pathname ++ ".json"
      /\ Direct.allSafe (Direct.cleanPathname pathname) = true
      /\ String.length (Direct.cleanPathname pathname)
         <= String.length pathname)
  /\ (option_map newURL url = None \/ option_map newURL url = Some None ->
      Direct.generateFilenameFromUrl newURL timestamp baseFilename url
      = Str.stripJsonSuffix baseFilename ++ "_" ++ Str.ofN timestamp
        ++ ".json").
Proof.
  split; [|split].
  - unfold Direct.generateFilenameFromUrl.
    destruct (option_map newURL url) as [[[h p]|]|];
      rewrite <- ?NameFacts.app_assoc3; apply StrFacts.endsWith_app.
  - intro H. split; [|split].
    + unfold Direct.generateFilenameFromUrl. simpl option_map.
      now rewrite H.
    + apply DirectFacts.allSafe_cleanPathname.
    + unfold Direct.cleanPathname.
      rewrite DirectFacts.length_replaceUnsafe.
      pose proof (DirectFacts.length_stripLeadingUnderscore
                    (Str.replaceSlashes pathname)) as L.
      now rewrite DirectFacts.length_replaceSlashes in L.
  - unfold Direct.generateFilenameFromUrl. now intros [-> | ->].
Qed.

(** The hypothesis of X13 holds for a page of the sample site: the slash
    inside its path becomes an underscore, the leading one is dropped. *)
Lemma generated_filename_witness :
  Sample.newURL (JString "https://example.com/a/b")
  = Some ("example.com", "/a/b")
  /\ Direct.generateFilenameFromUrl Sample.newURL 17 "direct.json"
       (Some (JString "https://example.com/a/b"))
     = "direct_example.coma_b.json"
  /\ Direct.allSafe "a_b" = true
  /\ String.length "a_b" <= String.length "/a/b".
Proof.
  split; [reflexivity|].
  exact (proj1 (proj2 (generated_filename_is_safe Sample.newURL 17
                         "direct.json" None
                         (JString "https://example.com/a/b") "example.com"
                         "/a/b"))
           eq_refl).
Defined.

(** X14: [writePageToFile] names the file of a page after the host and the
    clean path of its loaded URL only, so two pages of one host whose paths
    have the same clean path (as [/a/b] and [/a_b], or [/a/b] and [/a~b])
    are written under the same name, and the later write replaces the
    earlier file.  Every path has such a partner: its own clean path after
    a slash. *)
Theorem pages_with_equal_clean_paths_collide
    (newURL : json -> option (string * string)) (timestamp timestamp' : N)
    (config : Config) (title title' loadedUrl loadedUrl' html html' : string)
    (hostname pathname pathname' : string) :
  newURL (JString loadedUrl) = Some (hostname, pathname) ->
  newURL (JString loadedUrl') = Some (hostname, pathname') ->
  Direct.cleanPathname pathname = Direct.cleanPathname pathname' ->
  option_map fst
    (Direct.writePageToFile newURL timestamp config
       (Direct.pageData title loadedUrl html))
  = option_map fst
      (Direct.writePageToFile newURL timestamp' config
         (Direct.pageData title' loadedUrl' html'))
  /\ option_map fst
       (Direct.writePageToFile newURL timestamp config
          (Direct.pageData title loadedUrl html))
     = Some (Str.stripJsonSuffix (outputFileName config) ++ "_" ++ hostname
             ++ Direct.cleanPathname pathname ++ ".json")
  /\ Direct.cleanPathname ("/" ++ Direct.cleanPathname pathname)
     = Direct.cleanPathname pathname.
Proof.
  intros H H' E. unfold Direct.writePageToFile.
  rewrite !DirectFacts.sourceUrlOf_pageData. simpl option_map.
  unfold Direct.generateFilenameFromUrl. simpl option_map.
  rewrite H, H', E.
  split; [reflexivity|]. split; [reflexivity|].
  rewrite <- E. apply DirectFacts.cleanPathname_again.
Qed.

(** The hypotheses of X14 hold for the pages at [/a/b] and [/a~b] of one
    host: both are written to [direct_example.coma_b.json]. *)
Lemma pages_collide_witness :
  Sample.newURL (JString "https://example.com/a/b")
  = Some ("example.com", "/a/b")
  /\ Sample.newURL (JString "https://example.com/a~b")
     = Some ("example.com", "/a~b")
  /\ Direct.cleanPathname "/a/b" = Direct.cleanPathname "/a~b"
  /\ option_map fst
       (Direct.writePageToFile Sample.newURL 17 SampleMore.cfgDirect
          (Direct.pageData "A" "https://example.com/a/b" "alpha"))
     = Some "direct_example.coma_b.json"
  /\ option_map fst
       (Direct.writePageToFile Sample.newURL 18 SampleMore.cfgDirect
          (Direct.pageData "B" "https://example.com/a~b" "beta"))
     = Some "direct_example.coma_b.json".
Proof.
  pose proof (pages_with_equal_clean_paths_collide Sample.newURL 17 18
                SampleMore.cfgDirect "A" "B" "https://example.com/a/b"
                "https://example.com/a~b" "alpha" "beta" "example.com"
                "/a/b" "/a~b" eq_refl eq_refl eq_refl) as (S & N & _).
  split; [reflexivity|]. split; [reflexivity|]. split; [reflexivity|].
  split; [exact N|]. rewrite <- S. exact N.
Defined.
